(** * update-summary.py: a shallow embedding and its specification

    The hook [plugins/market-research-idea-validation/hooks/update-summary.py]
    keeps the table of contents [SUMMARY.md] in step with the markdown files
    of the directories [research/] and [output/].  This development embeds
    the script function by function and proves (or refutes) the properties
    that its natural-language specification states.

    Modelling conventions.
    - A Python [str] is a [string].  The embedding is that of the script
      on ASCII text: [str.strip] and [str.title] are modelled with the
      ASCII classes of blanks and letters, and on characters above 127
      they differ from Python's.  A statement about the letters of a
      title carries an ASCII hypothesis.
    - A [Set[str]] is a [gset string]; a [List[str]] is a [list string].
    - The file system is an explicit record that the stateful functions
      thread through; file contents are the text Python's text mode
      yields.  Text mode turns a carriage return into a line break when a
      file is read ([universal_newlines] below): a statement about a file
      that one run writes and the next run reads shows that the text
      written holds no carriage return.
    - Console output is informational and is not part of the model. *)

From Stdlib Require Import Ascii String.
From stdpp Require Import base decidable option list sorting gmap strings.


(** ** Python [str] methods *)

Module Str.

Definition nl : ascii := "010"%char.

(** [str.isspace] on one ASCII character (Python also counts blanks
    above 127, which are outside the text modelled here). *)
Definition isspace (c : ascii) : bool :=
  match c with
  | "009" | "010" | "011" | "012" | "013"
  | "028" | "029" | "030" | "031" | " " => true
  | _ => false
  end%char.

Definition islower (c : ascii) : bool :=
  (Ascii.leb "a" c && Ascii.leb c "z")%char.

Definition isupper (c : ascii) : bool :=
  (Ascii.leb "A" c && Ascii.leb c "Z")%char.

Definition toupper (c : ascii) : ascii :=
  if islower c then ascii_of_N (N_of_ascii c - 32) else c.

Definition tolower (c : ascii) : ascii :=
  if isupper c then ascii_of_N (N_of_ascii c + 32) else c.

(** All characters of [s] satisfy [p]. *)
Fixpoint all (p : ascii -> bool) (s : string) : bool :=
  match s with
  | "" => true
  | String c t => p c && all p t
  end.

Fixpoint lstrip (s : string) : string :=
  match s with
  | "" => ""
  | String c t => if isspace c then lstrip t else s
  end.

Fixpoint rstrip (s : string) : string :=
  match s with
  | "" => ""
  | String c t =>
      match rstrip t with
      | "" => if isspace c then "" else String c ""
      | r => String c r
      end
  end.

(** [s.strip()] *)
Definition strip (s : string) : string := rstrip (lstrip s).

(** [s.startswith(p)] *)
Fixpoint startswith (p s : string) : bool :=
  match p with
  | "" => true
  | String a p' =>
      match s with
      | "" => false
      | String b s' => Ascii.eqb a b && startswith p' s'
      end
  end.

(** [s.endswith(p)] *)
Fixpoint endswith (p s : string) : bool :=
  String.eqb p s ||
  match s with
  | "" => false
  | String _ t => endswith p t
  end.

(** [p in s] *)
Fixpoint contains (p s : string) : bool :=
  startswith p s ||
  match s with
  | "" => false
  | String _ t => contains p t
  end.

(** [s[n:]] *)
Fixpoint drop (n : nat) (s : string) : string :=
  match n, s with
  | S k, String _ t => drop k t
  | _, _ => s
  end.

(** [s[:n]] *)
Fixpoint take (n : nat) (s : string) : string :=
  match n, s with
  | S k, String c t => String c (take k t)
  | _, _ => ""
  end.

(** [s.split(sep)] for a one-character separator; never the empty list. *)
Fixpoint split (sep : ascii) (s : string) : list string :=
  match s with
  | "" => [""]
  | String c t =>
      if Ascii.eqb c sep then "" :: split sep t
      else match split sep t with
           | h :: r => String c h :: r
           | [] => [String c ""]
           end
  end.

(** [sep.join(l)] *)
Fixpoint join (sep : string) (l : list string) : string :=
  match l with
  | [] => ""
  | [x] => x
  | x :: r => x +:+ sep +:+ join sep r
  end.

(** [s.replace(a, b)] for one-character [a] and [b]. *)
Fixpoint replace (a b : ascii) (s : string) : string :=
  match s with
  | "" => ""
  | String c t => String (if Ascii.eqb c a then b else c) (replace a b t)
  end.

(** [s.rfind(c)], [None] standing for Python's -1. *)
Fixpoint rfind (c : ascii) (s : string) : option nat :=
  match s with
  | "" => None
  | String a t =>
      match rfind c t with
      | Some i => Some (S i)
      | None => if Ascii.eqb a c then Some 0 else None
      end
  end.

(** [s.title()] on ASCII text: [cased] records whether the previous
    character was a letter; a letter that follows a letter is lowered, any
    other letter is raised, and every other character is kept.  (On other
    text Python uses the case mappings of Unicode, which can also change
    the length.) *)
Fixpoint title_from (cased : bool) (s : string) : string :=
  match s with
  | "" => ""
  | String c t =>
      if islower c then
        String (if cased then c else toupper c) (title_from true t)
      else if isupper c then
        String (if cased then tolower c else c) (title_from true t)
      else String c (title_from false t)
  end.

Definition title (s : string) : string := title_from false s.

(** [s * n] *)
Fixpoint times (s : string) (n : nat) : string :=
  match n with
  | 0 => ""
  | S k => s +:+ times s k
  end.

End Str.

(** ** [pathlib]: the final component of a path and its stem *)

Module PathLib.

(** The parts of a relative POSIX path: empty components and ["."] are
    dropped when the path is parsed. *)
Definition parts (p : string) : list string :=
  filter (fun x => x <> "" /\ x <> ".") (Str.split "/" p).

(** [Path(p).name] *)
Definition name (p : string) : string := List.last (parts p) "".

(** [Path(p).stem]: the name up to its last dot, unless that dot is the
    first or the last character of the name. *)
Definition stem (p : string) : string :=
  let n := name p in
  match Str.rfind "." n with
  | Some i =>
      if (0 <? i)%nat && (i <? String.length n - 1)%nat
      then Str.take i n else n
  | None => n
  end.

End PathLib.

(** ** The link pattern [\[.*?\]\((.*?\.md)\)] *)

Module LinkPattern.

(** [(.*?\.md)\)]: the shortest run of characters, none a line break,
    that is followed by [.md)].  The result is the captured group and the
    number of characters consumed. *)
Fixpoint path_match (s : string) : option (string * nat) :=
  if Str.startswith ".md)" s then Some (".md", 4)
  else match s with
       | "" => None
       | String c t =>
           if Ascii.eqb c Str.nl then None
           else match path_match t with
                | Some (p, n) => Some (String c p, S n)
                | None => None
                end
       end.

(** [\]\((.*?\.md)\)]: what has to follow the label. *)
Definition rest_match (s : string) : option (string * nat) :=
  if Str.startswith "](" s then
    match path_match (Str.drop 2 s) with
    | Some (p, n) => Some (p, 2 + n)
    | None => None
    end
  else None.

(** [.*?\]\((.*?\.md)\)] once the opening bracket is consumed: the label
    grows one character at a time, none a line break, and at each length
    the rest of the pattern is tried before the label grows further. *)
Fixpoint link_match (s : string) : option (string * nat) :=
  match rest_match s with
  | Some r => Some r
  | None =>
      match s with
      | "" => None
      | String c t =>
          if Ascii.eqb c Str.nl then None
          else match link_match t with
               | Some (p, n) => Some (p, S n)
               | None => None
               end
      end
  end.

(** [pattern.finditer(s)], keeping group 1 of every match: matches are
    searched from left to right and do not overlap; [skip] counts the
    characters of the last match that are still to be passed over. *)
Fixpoint finditer (skip : nat) (s : string) : list string :=
  match s with
  | "" => []
  | String c t =>
      match skip with
      | S k => finditer k t
      | 0 =>
          if Ascii.eqb c "[" then
            match link_match t with
            | Some (p, n) => p :: finditer n t
            | None => finditer 0 t
            end
          else finditer 0 t
      end
  end.

End LinkPattern.

(** ** Configuration *)

Definition SECTION_MM : string := "## M+M".
Definition SECTION_CLAUDE : string := "## Claude code stuff".

(** ** The functions of the script *)

(** [sorted(files)]: the strings in ascending code-point order. *)
Definition sorted (files : list string) : list string :=
  merge_sort String.le files.

(** [find_markdown_files]: [dir] is the directory's path relative to the
    repository root; [listing] is [None] when the directory does not exist
    and otherwise the names of its entries, in the order the system lists
    them.  [glob("*.md")] keeps the entries whose name ends in [.md]. *)
Definition find_markdown_files (dir : string) (listing : option (list string))
  : list string :=
  match listing with
  | None => []
  | Some entries =>
      sorted (map (fun n => dir +:+ "/" +:+ n)
                  (filter (fun n => Str.endswith ".md" n = true) entries))
  end.

Definition filename_to_title (filepath : string) : string :=
  let name := PathLib.stem filepath in
  let title := Str.replace "_" " " (Str.replace "-" " " name) in
  Str.title title.

Definition extract_existing_links (content : string) : gset string :=
  list_to_set (LinkPattern.finditer 0 content).

Definition create_entry (filepath : string) (indent_level : nat) : string :=
  let title := filename_to_title filepath in
  let indent := Str.times "  " indent_level in
  indent +:+ "* [" +:+ title +:+ "](" +:+ filepath +:+ ")".

(** The dictionary that [parse_summary_structure] returns; its five keys
    are fixed, so it is a record. *)
Record Structure : Type := mkStructure {
  before_mm : list string;
  mm_section : list string;
  between_sections : list string;
  claude_section : list string;
  after_claude : list string
}.

(** The values that [current_section] takes. *)
Inductive SectionKey : Type :=
  | BeforeMM | MMSection | BetweenSections | ClaudeSection | AfterClaude.

Global Instance SectionKey_eq_dec : EqDecision SectionKey.
Proof. solve_decision. Defined.

(** [structure[key].append(line)] *)
Definition append_line (key : SectionKey) (line : string) (s : Structure)
  : Structure :=
  match key with
  | BeforeMM => mkStructure (before_mm s ++ [line]) (mm_section s)
      (between_sections s) (claude_section s) (after_claude s)
  | MMSection => mkStructure (before_mm s) (mm_section s ++ [line])
      (between_sections s) (claude_section s) (after_claude s)
  | BetweenSections => mkStructure (before_mm s) (mm_section s)
      (between_sections s ++ [line]) (claude_section s) (after_claude s)
  | ClaudeSection => mkStructure (before_mm s) (mm_section s)
      (between_sections s) (claude_section s ++ [line]) (after_claude s)
  | AfterClaude => mkStructure (before_mm s) (mm_section s)
      (between_sections s) (claude_section s) (after_claude s ++ [line])
  end.

(** The variables of the parsing loop. *)
Record ParseState : Type := mkParseState {
  current_section : SectionKey;
  mm_found : bool;
  claude_found : bool;
  structure : Structure
}.

Definition parse_init : ParseState :=
  mkParseState BeforeMM false false (mkStructure [] [] [] [] []).

(** The section a line is filed under, and the flags after it: the
    [if]/[elif] chain of the loop body. *)
Definition transition (st : ParseState) (line : string)
  : SectionKey * bool * bool :=
  let stripped := Str.strip line in
  if String.eqb stripped SECTION_MM then (MMSection, true, claude_found st)
  else if String.eqb stripped SECTION_CLAUDE then
    (if mm_found st then ClaudeSection else BeforeMM, mm_found st, true)
  else if bool_decide (current_section st = MMSection)
          && Str.startswith "##" stripped then
    (BetweenSections, mm_found st, claude_found st)
  else if bool_decide (current_section st = ClaudeSection)
          && Str.startswith "##" stripped then
    (AfterClaude, mm_found st, claude_found st)
  else (current_section st, mm_found st, claude_found st).

(** One iteration of the loop over the lines. *)
Definition parse_step (st : ParseState) (line : string) : ParseState :=
  let '(key, mm, cl) := transition st line in
  mkParseState key mm cl (append_line key line (structure st)).

Definition parse_lines (lines : list string) : ParseState :=
  foldl parse_step parse_init lines.

Definition parse_summary_structure (content : string) : Structure :=
  structure (parse_lines (Str.split Str.nl content)).

(** The loop that looks for the insertion point: the index of the first
    line, the first one excepted, that starts with [##] once stripped. *)
Fixpoint first_header (i : nat) (lines : list string) : option nat :=
  match lines with
  | [] => None
  | line :: rest =>
      if (0 <? i)%nat && Str.startswith "##" (Str.strip line) then Some i
      else first_header (S i) rest
  end.

Definition insertion_index (mm_section_lines : list string) : nat :=
  default (length mm_section_lines) (first_header 0 mm_section_lines).

(** [[f for f in files if f not in existing_files]] *)
Definition not_linked (existing_files : gset string) (files : list string)
  : list string :=
  filter (fun f => f ∉ existing_files) files.

(** The lines appended for one directory: the group header unless some line
    of the section contains it, then one entry per new file. *)
Definition group_lines (header : string) (mm_section_lines : list string)
    (new_files : list string) : list string :=
  match new_files with
  | [] => []
  | _ =>
      let has_header :=
        existsb (fun line => Str.contains ("* [" +:+ header +:+ "]") line)
                mm_section_lines in
      (if has_header then [] else ["  * [" +:+ header +:+ "]"])
      ++ map (fun filepath => create_entry filepath 2) new_files
  end.

Definition insert_research_output_sections (structure : Structure)
    (research_files output_files : list string) (existing_files : gset string)
  : list string :=
  let mm_section_lines := mm_section structure in
  let insertion_index := insertion_index mm_section_lines in
  let new_research := not_linked existing_files research_files in
  let new_output := not_linked existing_files output_files in
  before_mm structure
  ++ take insertion_index mm_section_lines
  ++ group_lines "Research" mm_section_lines new_research
  ++ group_lines "Output" mm_section_lines new_output
  ++ (if (insertion_index <? length mm_section_lines)%nat
      then drop insertion_index mm_section_lines else [])
  ++ between_sections structure
  ++ claude_section structure
  ++ after_claude structure.

(** ** The file system and the main function *)

(** The files the script touches.  [None] is a file or a directory that
    does not exist; a directory is the list of the names of its entries. *)
Record FS : Type := mkFS {
  summary_md : option string;
  summary_bak : option string;
  summary_tmp : option string;
  research_dir : option (list string);
  output_dir : option (list string)
}.

Definition set_summary (c : option string) (fs : FS) : FS :=
  mkFS c (summary_bak fs) (summary_tmp fs) (research_dir fs) (output_dir fs).
Definition set_bak (c : option string) (fs : FS) : FS :=
  mkFS (summary_md fs) c (summary_tmp fs) (research_dir fs) (output_dir fs).
Definition set_tmp (c : option string) (fs : FS) : FS :=
  mkFS (summary_md fs) (summary_bak fs) c (research_dir fs) (output_dir fs).

(** What can go wrong inside the [try] block: opening the temporary file,
    writing it (leaving [written] in the file), or renaming it. *)
Inductive Fault : Type :=
  | NoFault
  | OpenFails
  | WriteFails (written : string)
  | RenameFails.

Global Instance Fault_eq_dec : EqDecision Fault.
Proof. solve_decision. Defined.

(** A step of the [try] block either completes or raises, and in both
    cases leaves a file system behind. *)
Inductive Outcome : Type :=
  | Done (fs : FS)
  | Raised (fs : FS).

Definition and_then (o : Outcome) (k : FS -> Outcome) : Outcome :=
  match o with
  | Done fs => k fs
  | Raised fs => Raised fs
  end.

Notation "o >>> k" := (and_then o k) (at level 50, left associativity).

(** [open(temp_path, 'w')] creates or truncates the file. *)
Definition open_tmp (flt : Fault) (fs : FS) : Outcome :=
  match flt with
  | OpenFails => Raised fs
  | _ => Done (set_tmp (Some "") fs)
  end.

(** [f.write(updated_content)] and the close of the [with] block.  The
    file then holds the text written; what a later [open(path, 'r')] makes
    of it is [universal_newlines] of that text. *)
Definition write_tmp (flt : Fault) (content : string) (fs : FS) : Outcome :=
  match flt with
  | WriteFails written => Raised (set_tmp (Some written) fs)
  | _ => Done (set_tmp (Some content) fs)
  end.

(** [temp_path.rename(SUMMARY_PATH)] replaces the destination in one step. *)
Definition rename_tmp (flt : Fault) (fs : FS) : Outcome :=
  match flt with
  | RenameFails => Raised fs
  | _ => Done (set_tmp None (set_summary (summary_tmp fs) fs))
  end.

(** The [except] clause: [if temp_path.exists(): temp_path.unlink()]. *)
Definition cleanup_tmp (fs : FS) : FS :=
  match summary_tmp fs with
  | Some _ => set_tmp None fs
  | None => fs
  end.

(** [updated_content], newline-terminated. *)
Definition ensure_newline (updated_content : string) : string :=
  if Str.endswith (String Str.nl "") updated_content then updated_content
  else updated_content +:+ String Str.nl "".

Definition RESEARCH_DIR : string := "research".
Definition OUTPUT_DIR : string := "output".

(** The [try] statement that ends [update_summary]: the new content goes
    to the temporary file, which is then renamed over the outline; on an
    exception the temporary file is removed if it exists and the result is
    [False]. *)
Definition atomic_write (flt : Fault) (updated_content : string) (fs : FS)
  : bool * FS :=
  match open_tmp flt fs >>> write_tmp flt updated_content
                        >>> rename_tmp flt with
  | Done fs => (true, fs)
  | Raised fs => (false, cleanup_tmp fs)
  end.

(** [update_summary]: the result is the returned boolean and the file
    system the call leaves. *)
Definition update_summary (dry_run : bool) (flt : Fault) (fs : FS)
  : bool * FS :=
  match summary_md fs with
  | None => (false, fs)
  | Some content =>
    let research_files := find_markdown_files RESEARCH_DIR (research_dir fs) in
    let output_files := find_markdown_files OUTPUT_DIR (output_dir fs) in
    match research_files, output_files with
    | [], [] => (true, fs)
    | _, _ =>
      let existing_files := extract_existing_links content in
      let new_research := not_linked existing_files research_files in
      let new_output := not_linked existing_files output_files in
      match new_research, new_output with
      | [], [] => (true, fs)
      | _, _ =>
        if dry_run then (true, fs) else
        let structure := parse_summary_structure content in
        let fs := set_bak (Some content) fs in
        let updated_lines :=
          insert_research_output_sections structure research_files
            output_files existing_files in
        let updated_content :=
          ensure_newline (Str.join (String Str.nl "") updated_lines) in
        atomic_write flt updated_content fs
      end
    end
  end.

(** [main]: the exit status and the file system left behind. *)
Definition main (argv : list string) (flt : Fault) (fs : FS) : nat * FS :=
  let dry_run := bool_decide ("--dry-run" ∈ argv) in
  let '(success, fs) := update_summary dry_run flt fs in
  (if success then 0 else 1, fs).

(** * Vocabulary of the statements *)


(** The test of the first and of the second branch of the loop body. *)
Definition is_mm (line : string) : bool :=
  String.eqb (Str.strip line) SECTION_MM.

Definition is_claude (line : string) : bool :=
  String.eqb (Str.strip line) SECTION_CLAUDE.

(** The test of the third and of the fourth branch, the section apart. *)
Definition is_header (line : string) : bool :=
  Str.startswith "##" (Str.strip line).

(** The five lists one after the other, as the merge lays them out. *)
Definition segments (s : Structure) : list string :=
  before_mm s ++ mm_section s ++ between_sections s
  ++ claude_section s ++ after_claude s.

(** The lines up to the first marker-A line. *)
Fixpoint until_mm (l : list string) : list string :=
  match l with
  | [] => []
  | x :: r => if is_mm x then [] else x :: until_mm r
  end.

(** Once marker A has been met the first list is closed. *)
Definition past_mm (st : ParseState) : Prop :=
  mm_found st = true /\ current_section st <> BeforeMM.

(** The place of a key in the order in which the merge lays the lists out. *)
Definition rank (k : SectionKey) : nat :=
  match k with
  | BeforeMM => 0 | MMSection => 1 | BetweenSections => 2
  | ClaudeSection => 3 | AfterClaude => 4
  end.

(** The lists that come after the one of [k] are still empty. *)
Definition empty_after (k : SectionKey) (s : Structure) : Prop :=
  (rank k < 1 -> mm_section s = [])
  /\ (rank k < 2 -> between_sections s = [])
  /\ (rank k < 3 -> claude_section s = [])
  /\ (rank k < 4 -> after_claude s = []).

(** The number of lines that pass a test. *)
Fixpoint occurrences (p : string -> bool) (l : list string) : nat :=
  match l with
  | [] => 0
  | x :: r => (if p x then 1 else 0) + occurrences p r
  end.

(** What the loop maintains on a file in which each marker stands on one
    line at most. *)
Definition in_order (l : list string) (st : ParseState) : Prop :=
  segments (structure st) = l
  /\ empty_after (current_section st) (structure st)
  /\ mm_found st = existsb is_mm l
  /\ claude_found st = existsb is_claude l
  /\ (mm_found st = false -> current_section st = BeforeMM)
  /\ (claude_found st = false -> rank (current_section st) < 3).

(** The group of a directory when the section has no header for it: the
    header line, then one entry per file. *)
Definition fresh_group (header : string) (files : list string) : list string :=
  match files with
  | [] => []
  | _ => ("  * [" +:+ header +:+ "]")
         :: map (fun filepath => create_entry filepath 2) files
  end.

(** The header line of a group, when the merge writes one: there are new
    files and no line of the section contains the header text. *)
Definition header_if (header : string) (mm : list string)
    (files : list string) : list string :=
  if bool_decide (files <> [])
     && negb (existsb (fun line => Str.contains ("* [" +:+ header +:+ "]") line) mm)
  then ["  * [" +:+ header +:+ "]"] else [].

(** The lines that a run on [fs] would write for the outline [content]. *)
Definition updated_lines_of (content : string) (fs : FS) : list string :=
  insert_research_output_sections (parse_summary_structure content)
    (find_markdown_files RESEARCH_DIR (research_dir fs))
    (find_markdown_files OUTPUT_DIR (output_dir fs))
    (extract_existing_links content).

(** The discovered files that the outline does not link yet. *)
Definition pending (content : string) (fs : FS) : list string :=
  not_linked (extract_existing_links content)
    (find_markdown_files RESEARCH_DIR (research_dir fs))
  ++ not_linked (extract_existing_links content)
       (find_markdown_files OUTPUT_DIR (output_dir fs)).

(** Character classes of the lemmas below. *)
Definition not_nl (c : ascii) : bool := negb (Ascii.eqb c Str.nl).

Definition not_open (c : ascii) : bool := negb (Ascii.eqb c "[").

Definition label_char (c : ascii) : bool :=
  negb (Ascii.eqb c Str.nl) && negb (Ascii.eqb c "]").

Definition nlS : string := String Str.nl "".

(** A link as the lines below spell it: the text before its opening
    bracket, its label, and its path without the final [.md]. *)
Record Link : Type := mkLink {
  link_gap : string;
  link_label : string;
  link_base : string
}.

Definition link_path (k : Link) : string := link_base k +:+ ".md".

(** No opening bracket before the link, no closing bracket and no line
    break in its label, no line break and no [.md)] in its path. *)
Definition plain_link (k : Link) : bool :=
  Str.all not_open (link_gap k) && Str.all label_char (link_label k)
  && Str.all not_nl (link_base k)
  && negb (Str.contains ".md)" (link_path k)).

(** The links one after the other, then [tail]. *)
Fixpoint links_text (links : list Link) (tail : string) : string :=
  match links with
  | [] => tail
  | k :: rest =>
      link_gap k +:+ "[" +:+ link_label k +:+ "](" +:+ link_base k
      +:+ ".md)" +:+ links_text rest tail
  end.

(** A path with no line break, no [\]] and no [.md)] in it. *)
Definition plain_path (p : string) : bool :=
  Str.all label_char p && negb (Str.contains ".md)" p).

(** What the five lists of a parse look like: no marker-A line in the
    first; marker A's body starts with a marker-A line and has no other
    header line than marker-A lines; likewise the Claude body with marker
    B; the two remaining lists start with a header line and hold no marker
    line. *)
Definition first_is (p : string -> bool) (l : list string) : Prop :=
  match l with
  | [] => True
  | x :: _ => p x = true
  end.

Definition sections_well_formed (s : Structure) : Prop :=
  Forall (fun x => is_mm x = false) (before_mm s)
  /\ first_is is_mm (mm_section s)
  /\ Forall (fun x => is_header x = true -> is_mm x = true) (mm_section s)
  /\ first_is is_header (between_sections s)
  /\ Forall (fun x => is_mm x = false /\ is_claude x = false)
            (between_sections s)
  /\ first_is is_claude (claude_section s)
  /\ Forall (fun x => is_header x = true -> is_claude x = true)
            (claude_section s)
  /\ first_is is_header (after_claude s)
  /\ Forall (fun x => is_mm x = false /\ is_claude x = false)
            (after_claude s).

(** The list under a key. *)
Definition section_of (k : SectionKey) (s : Structure) : list string :=
  match k with
  | BeforeMM => before_mm s
  | MMSection => mm_section s
  | BetweenSections => between_sections s
  | ClaudeSection => claude_section s
  | AfterClaude => after_claude s
  end.

(** What the two replacements of the title leave: no [-] and no [_]. *)
Definition not_separator (c : ascii) : bool :=
  negb (Ascii.eqb c "-") && negb (Ascii.eqb c "_").

(** The carriage return. *)
Definition cr : ascii := "013"%char.

(** A character below 128. *)
Definition is_ascii (c : ascii) : bool :=
  match c with
  | Ascii _ _ _ _ _ _ _ b7 => negb b7
  end.

Definition not_cr (c : ascii) : bool := negb (Ascii.eqb c cr).

(** A character that ends no line, neither when it is written nor when it
    is read back. *)
Definition not_eol (c : ascii) : bool :=
  negb (Ascii.eqb c Str.nl) && negb (Ascii.eqb c cr).

(** What [open(path, 'r')] makes of the text of a file when it is read:
    a carriage return, alone or followed by a line break, becomes one line
    break. *)
Fixpoint universal_newlines (s : string) : string :=
  match s with
  | "" => ""
  | String c t =>
      if Ascii.eqb c cr then
        match t with
        | String d t' =>
            if Ascii.eqb d Str.nl then String Str.nl (universal_newlines t')
            else String Str.nl (universal_newlines t)
        | "" => String Str.nl ""
        end
      else String c (universal_newlines t)
  end.

(** A path whose entry the link pattern reads back as it was rendered: no
    line break, no carriage return, and neither [\](] nor [.md)] in it. *)
Definition well_formed_path (p : string) : bool :=
  Str.all not_eol p && negb (Str.contains "](" p)
  && negb (Str.contains ".md)" p).


(** Whether a character is [\]], and whether it is [(]. *)
Definition bracket_class (c : ascii) : bool * bool :=
  (Ascii.eqb "]" c, Ascii.eqb "(" c).

(** Two texts with [\]] and [(] at the same places. *)
Fixpoint same_brackets (s t : string) : Prop :=
  match s, t with
  | "", "" => True
  | String c s', String d t' =>
      bracket_class c = bracket_class d /\ same_brackets s' t'
  | _, _ => False
  end.

(** * Properties *)

(** ** Strings *)

Section StringFacts.

Implicit Types (s t p : string) (c : ascii) (l : list string).

Lemma str_app_nil_l s : "" +:+ s = s.
Proof. reflexivity. Qed.

Lemma str_app_cons c s t : String c s +:+ t = String c (s +:+ t).
Proof. reflexivity. Qed.

Lemma str_app_nil_r s : s +:+ "" = s.
Proof. induction s as [|c s IH]; [done|]. by rewrite str_app_cons, IH. Qed.

Lemma str_app_assoc s t p : (s +:+ t) +:+ p = s +:+ t +:+ p.
Proof. induction s as [|c s IH]; [done|]. by rewrite !str_app_cons, IH. Qed.

Lemma str_length_app s t :
  String.length (s +:+ t) = String.length s + String.length t.
Proof. induction s as [|c s IH]; [done|]. rewrite str_app_cons. simpl. by rewrite IH. Qed.

Lemma all_app f s t : Str.all f (s +:+ t) = Str.all f s && Str.all f t.
Proof.
  induction s as [|c s IH]; [done|].
  rewrite str_app_cons. simpl. rewrite IH. by destruct (f c).
Qed.

Lemma all_impl (f g : ascii -> bool) s :
  (forall c, f c = true -> g c = true) ->
  Str.all f s = true -> Str.all g s = true.
Proof.
  intros Hfg. induction s as [|c s IH]; [done|]. simpl.
  intros [Hc Hs]%andb_true_iff. rewrite (Hfg c Hc). by apply IH.
Qed.


Lemma all_take f n s : Str.all f s = true -> Str.all f (Str.take n s) = true.
Proof.
  revert n. induction s as [|c s IH]; intros [|n]; try done. simpl.
  intros [-> Hs]%andb_true_iff. by apply IH.
Qed.


(** [split] and [join] are inverse to each other on the text of a file. *)
Lemma split_nonempty sep s : Str.split sep s <> [].
Proof.
  destruct s as [|c s]; [done|]. simpl.
  destruct (Ascii.eqb c sep); [done|]. by destruct (Str.split sep s).
Qed.

Lemma join_cons sep s l :
  l <> [] -> Str.join sep (s :: l) = s +:+ sep +:+ Str.join sep l.
Proof. by destruct l. Qed.

Lemma join_split sep s : Str.join (String sep "") (Str.split sep s) = s.
Proof.
  induction s as [|c s IH]; [done|]. simpl.
  destruct (Ascii.eqb_spec c sep) as [->|Hne].
  - rewrite join_cons by apply split_nonempty. by rewrite IH.
  - pose proof (split_nonempty sep s) as Hne'.
    destruct (Str.split sep s) as [|h r]; [done|].
    destruct r as [|h' r]; simpl in *; [by rewrite IH|].
    rewrite str_app_cons. by rewrite <-IH.
Qed.

Lemma split_all_ne sep s :
  Forall (fun x => Str.all (fun c => negb (Ascii.eqb c sep)) x = true)
         (Str.split sep s).
Proof.
  induction s as [|c s IH]; [by repeat constructor|]. simpl.
  destruct (Ascii.eqb c sep) eqn:Hc; [by constructor|].
  destruct (Str.split sep s) as [|h r]; [repeat constructor; simpl; by rewrite Hc|].
  inversion_clear IH. constructor; [|done]. simpl. by rewrite Hc.
Qed.

Lemma split_no_sep sep s :
  Str.all (fun c => negb (Ascii.eqb c sep)) s = true -> Str.split sep s = [s].
Proof.
  induction s as [|c s IH]; [done|]. simpl.
  intros [Hc Hs]%andb_true_iff. apply negb_true_iff in Hc. rewrite Hc.
  by rewrite IH.
Qed.

Lemma split_app sep s t :
  Str.split sep (s +:+ String sep t) = Str.split sep s ++ Str.split sep t.
Proof.
  induction s as [|c s IH].
  - rewrite str_app_nil_l. simpl. by rewrite Ascii.eqb_refl.
  - rewrite str_app_cons. simpl. rewrite IH.
    destruct (Ascii.eqb c sep); [done|].
    pose proof (split_nonempty sep s).
    by destruct (Str.split sep s).
Qed.

(** The characters of every piece of a split come from the string. *)
Lemma split_all f sep s :
  Str.all f s = true -> Forall (fun x => Str.all f x = true) (Str.split sep s).
Proof.
  induction s as [|c s IH]; [by repeat constructor|]. simpl.
  intros [Hc Hs]%andb_true_iff. specialize (IH Hs).
  destruct (Ascii.eqb c sep); [by constructor|].
  destruct (Str.split sep s) as [|h r]; [repeat constructor; simpl; by rewrite Hc|].
  inversion_clear IH. constructor; [|done]. simpl. by rewrite Hc.
Qed.

End StringFacts.

(** ** Title derivation *)

Section Title.





End Title.


(** ** Discovery *)

Lemma find_markdown_files_permutation (dir : string)
    (listing : option (list string)) :
  find_markdown_files dir listing
  ≡ₚ map (fun n => dir +:+ "/" +:+ n)
         (filter (fun n => Str.endswith ".md" n = true) (default [] listing)).
Proof. destruct listing as [entries|]; [apply merge_sort_Permutation|done]. Qed.

Lemma elem_of_find_markdown_files (dir : string)
    (listing : option (list string)) (p : string) :
  p ∈ find_markdown_files dir listing <->
  exists entries n, listing = Some entries /\ n ∈ entries
    /\ Str.endswith ".md" n = true /\ p = dir +:+ "/" +:+ n.
Proof.
  rewrite find_markdown_files_permutation, list_elem_of_fmap. split.
  - intros (n & -> & [Hn Hin]%list_elem_of_filter).
    destruct listing as [entries|]; [|by apply elem_of_nil in Hin].
    by exists entries, n.
  - intros (entries & n & -> & Hin & Hn & ->).
    exists n. split; [done|]. by apply list_elem_of_filter.
Qed.

(** C8.  Discovery returns, in ascending lexicographic order, the relative
    path of every entry of the directory whose name ends in [.md], each one
    as often as the listing has it and nothing else (the listing is that of
    the directory itself, so nothing below a subdirectory is seen); a
    directory that does not exist yields the empty list.  The function
    takes the listing and returns a value: it leaves no trace. *)
Theorem find_markdown_files_spec (dir : string) (listing : option (list string)) :
  Sorted String.le (find_markdown_files dir listing)
  /\ find_markdown_files dir listing
     ≡ₚ map (fun n => dir +:+ "/" +:+ n)
            (filter (fun n => Str.endswith ".md" n = true) (default [] listing))
  /\ (forall p, p ∈ find_markdown_files dir listing <->
        exists entries n, listing = Some entries /\ n ∈ entries
          /\ Str.endswith ".md" n = true /\ p = dir +:+ "/" +:+ n)
  /\ find_markdown_files dir None = [].
Proof.
  split_and!.
  - destruct listing as [entries|]; [|constructor].
    apply (Sorted_merge_sort String.le).
  - apply find_markdown_files_permutation.
  - apply elem_of_find_markdown_files.
  - reflexivity.
Qed.

(** ** The structural parse *)

Section Parse.

Implicit Types (l pre post : list string) (x line : string)
               (st : ParseState) (s : Structure).

Lemma transition_eq st line :
  transition st line =
  if is_mm line then (MMSection, true, claude_found st)
  else if is_claude line then
    (if mm_found st then ClaudeSection else BeforeMM, mm_found st, true)
  else if bool_decide (current_section st = MMSection) && is_header line then
    (BetweenSections, mm_found st, claude_found st)
  else if bool_decide (current_section st = ClaudeSection) && is_header line
  then (AfterClaude, mm_found st, claude_found st)
  else (current_section st, mm_found st, claude_found st).
Proof. reflexivity. Qed.

Lemma is_mm_claude line : is_mm line = true -> is_claude line = false.
Proof.
  unfold is_mm, is_claude. intros ->%String.eqb_eq. reflexivity.
Qed.

Lemma parse_lines_snoc l x :
  parse_lines (l ++ [x]) = parse_step (parse_lines l) x.
Proof. unfold parse_lines. by rewrite foldl_snoc. Qed.

Lemma parse_lines_app l1 l2 :
  parse_lines (l1 ++ l2) = foldl parse_step (parse_lines l1) l2.
Proof. unfold parse_lines. by rewrite foldl_app. Qed.

Lemma structure_parse_step st x :
  structure (parse_step st x)
  = append_line (current_section (parse_step st x)) x (structure st).
Proof. unfold parse_step. by destruct (transition st x) as [[k m] c]. Qed.

Lemma snoc_middle (x : string) (l1 l2 : list string) :
  (l1 ++ [x]) ++ l2 ≡ₚ (l1 ++ l2) ++ [x].
Proof.
  rewrite <-!(assoc_L (++)). apply Permutation_app_head.
  apply Permutation_app_comm.
Qed.

Lemma segments_append_line k x s :
  segments (append_line k x s) ≡ₚ segments s ++ [x].
Proof.
  unfold segments. destruct s as [b m bt c a]. destruct k; simpl.
  - apply snoc_middle.
  - rewrite <-(assoc_L (++) b). apply Permutation_app_head, snoc_middle.
  - rewrite <-(assoc_L (++) b), <-(assoc_L (++) m).
    do 2 apply Permutation_app_head. apply snoc_middle.
  - rewrite <-(assoc_L (++) b), <-(assoc_L (++) m), <-(assoc_L (++) bt).
    do 3 apply Permutation_app_head. apply snoc_middle.
  - by rewrite <-!(assoc_L (++)).
Qed.

(** Every line is filed under exactly one key. *)
Lemma parse_lines_permutation l : segments (structure (parse_lines l)) ≡ₚ l.
Proof.
  induction l as [|x l IH] using rev_ind; [done|].
  rewrite parse_lines_snoc, structure_parse_step, segments_append_line.
  by rewrite IH.
Qed.

(** While marker A has not been met, every line goes to the first list. *)
Lemma parse_lines_no_mm l :
  forallb (fun x => negb (is_mm x)) l = true ->
  parse_lines l
  = mkParseState BeforeMM false (existsb is_claude l) (mkStructure l [] [] [] []).
Proof.
  induction l as [|x l IH] using rev_ind; [done|].
  rewrite forallb_app. simpl. rewrite andb_true_r.
  intros [Hl Hx%negb_true_iff]%andb_true_iff.
  rewrite parse_lines_snoc, (IH Hl). unfold parse_step, transition. simpl.
  fold (is_mm x). fold (is_claude x). rewrite Hx.
  rewrite existsb_app. simpl. rewrite orb_false_r.
  destruct (is_claude x); simpl.
  - by rewrite orb_true_r.
  - by rewrite orb_false_r.
Qed.

Lemma parse_step_past_mm st x :
  past_mm st ->
  past_mm (parse_step st x)
  /\ before_mm (structure (parse_step st x)) = before_mm (structure st).
Proof.
  intros [Hm Hc]. unfold parse_step, transition. fold (is_mm x) (is_claude x).
  rewrite Hm.
  destruct (is_mm x); [done|].
  destruct (is_claude x); [done|].
  destruct (bool_decide _ && _); [done|].
  destruct (bool_decide _ && _); [done|].
  split; [done|]. simpl. by destruct (current_section st).
Qed.

Lemma foldl_past_mm st l :
  past_mm st ->
  past_mm (foldl parse_step st l)
  /\ before_mm (structure (foldl parse_step st l)) = before_mm (structure st).
Proof.
  revert st. induction l as [|x l IH]; intros st Hst; [done|]. simpl.
  destruct (parse_step_past_mm st x Hst) as [H1 H2].
  destruct (IH _ H1) as [H3 H4]. split; [done|]. by rewrite H4.
Qed.

Lemma until_mm_split l :
  exists rest, l = until_mm l ++ rest
    /\ forallb (fun x => negb (is_mm x)) (until_mm l) = true
    /\ (rest = [] \/ exists a r, rest = a :: r /\ is_mm a = true).
Proof.
  induction l as [|x l (rest & Hl & Hn & Hr)]; [by exists []; auto|]. simpl.
  destruct (is_mm x) eqn:Hx.
  - exists (x :: l). split; [done|]. split; [done|]. right. by exists x, l.
  - exists rest. split; [simpl; by rewrite <-Hl|]. split; [|done].
    simpl. by rewrite Hx.
Qed.

(** The first list is the file up to the first marker-A line. *)
Lemma before_mm_parse_lines l :
  before_mm (structure (parse_lines l)) = until_mm l.
Proof.
  destruct (until_mm_split l) as (rest & Hl & Hn & Hr).
  rewrite Hl at 1. rewrite parse_lines_app, (parse_lines_no_mm _ Hn).
  destruct Hr as [->|(a & r & -> & Ha)]; [done|]. simpl.
  match goal with |- context [foldl parse_step ?st r] =>
    destruct (foldl_past_mm st r) as [_ ->] end.
  - unfold parse_step, transition. fold (is_mm a). by rewrite Ha.
  - unfold parse_step, transition. fold (is_mm a). by rewrite Ha.
Qed.

(** A section other than the first is current only after marker A. *)
Lemma parse_lines_flags l :
  mm_found (parse_lines l) = existsb is_mm l
  /\ (current_section (parse_lines l) <> BeforeMM ->
      mm_found (parse_lines l) = true).
Proof.
  induction l as [|x l [IH1 IH2]] using rev_ind; [done|].
  rewrite parse_lines_snoc, existsb_app. cbn [existsb]. rewrite orb_false_r.
  unfold parse_step. rewrite transition_eq.
  destruct (is_mm x); [cbn; by rewrite orb_true_r|].
  rewrite orb_false_r.
  destruct (is_claude x); [cbn; split; [done|]; by destruct (mm_found _)|].
  destruct (is_header x); rewrite ?andb_true_r, ?andb_false_r;
    repeat case_bool_decide; cbn; (split; [done|]); intros ?;
    apply IH2; congruence.
Qed.

Lemma until_mm_app_no_mm pre post :
  forallb (fun x => negb (is_mm x)) pre = true ->
  until_mm (pre ++ post) = pre ++ until_mm post.
Proof.
  induction pre as [|x pre IH]; [done|]. simpl.
  intros [Hx%negb_true_iff Hpre]%andb_true_iff. rewrite Hx. by rewrite IH.
Qed.

End Parse.

(** C10.  When a marker-B line comes before every marker-A line, that line
    and the lines after it, up to the first marker-A line, are filed in the
    before-A list; and the Claude list is current after a line only if a
    marker-A line stands earlier in the file. *)
Theorem claude_marker_before_mm (content : string) (pre post : list string)
    (b : string) :
  Str.split Str.nl content = pre ++ b :: post ->
  forallb (fun x => negb (is_mm x)) pre = true ->
  is_claude b = true ->
  before_mm (parse_summary_structure content) = pre ++ b :: until_mm post
  /\ current_section (parse_lines (pre ++ [b])) = BeforeMM
  /\ (forall l1 x l2,
        Str.split Str.nl content = l1 ++ x :: l2 ->
        current_section (parse_lines (l1 ++ [x])) = ClaudeSection ->
        existsb is_mm l1 = true).
Proof.
  intros Hsplit Hpre Hb.
  assert (Hnb : is_mm b = false).
  { destruct (is_mm b) eqn:E; [|done]. apply is_mm_claude in E. congruence. }
  split; [|split].
  - unfold parse_summary_structure. rewrite Hsplit, before_mm_parse_lines.
    rewrite until_mm_app_no_mm by done. simpl. by rewrite Hnb.
  - rewrite parse_lines_no_mm; [done|].
    rewrite forallb_app, Hpre. simpl. by rewrite Hnb.
  - intros l1 x l2 _. rewrite parse_lines_snoc.
    destruct (parse_lines_flags l1) as [H1 H2]. rewrite <-H1.
    unfold parse_step. rewrite transition_eq.
    destruct (is_mm x); [done|].
    destruct (is_claude x); [cbn; by destruct (mm_found _)|].
    destruct (is_header x); rewrite ?andb_true_r, ?andb_false_r;
      repeat case_bool_decide; cbn; try done; intros ?;
      apply H2; congruence.
Qed.

Lemma claude_marker_before_mm_witness :
  before_mm (parse_summary_structure
    "# Summary
## Claude code stuff
* [Intro](intro.md)
## M+M
## Claude code stuff")
  = ["# Summary"; "## Claude code stuff"; "* [Intro](intro.md)"].
Proof.
  destruct (claude_marker_before_mm
    "# Summary
## Claude code stuff
* [Intro](intro.md)
## M+M
## Claude code stuff"
    ["# Summary"] ["* [Intro](intro.md)"; "## M+M"; "## Claude code stuff"]
    "## Claude code stuff") as [H _].
  - reflexivity.
  - reflexivity.
  - reflexivity.
  - exact H.
Defined.

(** *** The order of the five lists *)

Section RoundTrip.

Implicit Types (l : list string) (x : string) (st : ParseState)
               (s : Structure) (k : SectionKey).

Lemma segments_append_last k x s :
  empty_after k s ->
  segments (append_line k x s) = segments s ++ [x]
  /\ empty_after k (append_line k x s).
Proof.
  intros (H1 & H2 & H3 & H4). unfold segments, empty_after.
  destruct s as [b m bt c a]. simpl in *.
  destruct k; simpl in *;
    rewrite ?H1, ?H2, ?H3, ?H4, ?app_nil_r, <-?(assoc_L (++)) by lia;
    (split; [done|]); repeat split; intros; try lia; auto with lia.
Qed.

Lemma empty_after_mono k k' s :
  rank k <= rank k' -> empty_after k s -> empty_after k' s.
Proof. unfold empty_after. intros ? (?&?&?&?). repeat split; auto with lia. Qed.

Lemma occurrences_app p l1 l2 :
  occurrences p (l1 ++ l2) = occurrences p l1 + occurrences p l2.
Proof. induction l1 as [|x l1 IH]; [done|]. simpl. rewrite IH. lia. Qed.

Lemma occurrences_0 p l : occurrences p l = 0 -> existsb p l = false.
Proof.
  induction l as [|x l IH]; [done|]. simpl.
  destruct (p x); [done|]. simpl. apply IH.
Qed.

Lemma parse_lines_in_order l :
  occurrences is_mm l <= 1 -> occurrences is_claude l <= 1 ->
  in_order l (parse_lines l).
Proof.
  induction l as [|x l IH] using rev_ind.
  { intros _ _. repeat split; simpl; auto with lia. }
  rewrite !occurrences_app. simpl. intros Hm Hc.
  destruct IH as (Hseg & Hemp & Hmm & Hcl & Hb & Hr); [lia..|].
  rewrite parse_lines_snoc. unfold in_order.
  rewrite structure_parse_step, !existsb_app. cbn [existsb].
  rewrite !orb_false_r, <-Hmm, <-Hcl.
  assert (Hkey : rank (current_section (parse_lines l))
                 <= rank (current_section (parse_step (parse_lines l) x))).
  { unfold parse_step. rewrite transition_eq.
    destruct (is_mm x) eqn:Hx.
    - cbn. rewrite Hb; [simpl; lia|].
      rewrite Hmm. apply occurrences_0. lia.
    - destruct (is_claude x) eqn:Hy.
      + assert (Hcf : claude_found (parse_lines l) = false).
        { rewrite Hcl. apply occurrences_0. lia. }
        specialize (Hr Hcf). cbn.
        destruct (mm_found (parse_lines l)); [simpl; lia|].
        by rewrite Hb.
      + destruct (is_header x); rewrite ?andb_true_r, ?andb_false_r;
          repeat case_bool_decide; cbn; try lia;
          match goal with H : current_section _ = _ |- _ => rewrite H end;
          simpl; lia. }
  destruct (segments_append_last
              (current_section (parse_step (parse_lines l) x)) x
              (structure (parse_lines l))) as [E1 E2].
  { by apply (empty_after_mono _ _ _ Hkey). }
  split; [by rewrite E1, Hseg|]. split; [done|].
  clear E1 E2 Hkey. unfold parse_step. rewrite transition_eq.
  destruct (is_mm x) eqn:Hx.
  { cbn. rewrite (is_mm_claude _ Hx), orb_true_r, orb_false_r.
    repeat split; try done. intros _. simpl. lia. }
  destruct (is_claude x) eqn:Hy.
  { cbn. rewrite orb_true_r, orb_false_r. repeat split; try done.
    by intros ->. }
  rewrite !orb_false_r. clear Hemp Hseg. revert Hb Hr.
  destruct (current_section (parse_lines l)), (is_header x);
    rewrite ?andb_true_r, ?andb_false_r;
    repeat (case_bool_decide; try congruence); cbn;
    intros Hb Hr; repeat split; try done;
    intros Hf; try specialize (Hb Hf); try specialize (Hr Hf);
    simpl in *; try lia; congruence.
Qed.

(** On such a file the five lists, one after the other, are the file. *)
Lemma parse_lines_round_trip l :
  occurrences is_mm l <= 1 -> occurrences is_claude l <= 1 ->
  segments (structure (parse_lines l)) = l.
Proof. intros Hm Hc. by destruct (parse_lines_in_order l Hm Hc). Qed.

End RoundTrip.

(** C4.  The five lists do not always reproduce the file: a marker-A line
    that comes back after the Claude section has been opened is filed with
    the first marker's body, ahead of lines that precede it in the file;
    a run on such an outline writes it back with those lines moved. *)
Theorem repeated_marker_reorders_lines :
  let content := "## M+M
* [A](a.md)
## Claude code stuff
* [B](b.md)
## M+M
* [C](c.md)" in
  segments (parse_summary_structure content)
  = ["## M+M"; "* [A](a.md)"; "## M+M"; "* [C](c.md)";
     "## Claude code stuff"; "* [B](b.md)"]
  /\ segments (parse_summary_structure content) <> Str.split Str.nl content
  /\ summary_md (snd (update_summary false NoFault
                        (mkFS (Some content) None None (Some ["n.md"]) None)))
     = Some "## M+M
* [A](a.md)
  * [Research]
    * [N](research/n.md)
## M+M
* [C](c.md)
## Claude code stuff
* [B](b.md)
".
Proof. split; [reflexivity|]. split; [discriminate|]. vm_compute. reflexivity. Qed.

(** ** The merge *)

Section Merge.

Implicit Types (l mm : list string) (x line header : string)
               (s : Structure) (existing : gset string).

Lemma group_lines_eq header mm files :
  group_lines header mm files
  = header_if header mm files
    ++ map (fun filepath => create_entry filepath 2) files.
Proof.
  unfold group_lines, header_if. destruct files as [|f files]; [done|].
  rewrite bool_decide_eq_true_2 by done. cbn [group_lines andb].
  by destruct (existsb _ mm).
Qed.

Lemma group_lines_nil header files :
  group_lines header [] files = fresh_group header files.
Proof. by destruct files. Qed.

Lemma first_header_spec i l :
  match first_header i l with
  | Some j =>
      i <= j /\ j < i + length l /\ 0 < j
      /\ (exists line, l !! (j - i) = Some line /\ is_header line = true)
      /\ (forall k line, k < j - i -> 0 < i + k ->
            l !! k = Some line -> is_header line = false)
  | None =>
      forall k line, 0 < i + k -> l !! k = Some line -> is_header line = false
  end.
Proof.
  revert i. induction l as [|x l IH]; intros i; cbn [first_header length].
  { intros k line _. by rewrite lookup_nil. }
  fold (is_header x).
  destruct ((0 <? i) && is_header x) eqn:E; cbv beta iota.
  - apply andb_true_iff in E as [Hi%Nat.ltb_lt Hx].
    split_and!; try lia.
    exists x. by rewrite Nat.sub_diag.
  - assert (Hx : forall line, 0 < i + 0 -> Some x = Some line ->
                             is_header line = false).
    { intros line Hpos [= <-]. apply andb_false_iff in E as [E|E]; [|done].
      apply Nat.ltb_ge in E. lia. }
    specialize (IH (S i)). destruct (first_header (S i) l) as [j|].
    + destruct IH as (H1 & H2 & H3 & (line & Hl & Hh) & H5).
      split_and!; try lia.
      * exists line. split; [|done].
        by replace (j - i) with (S (j - S i)) by lia.
      * intros [|k] line' Hk Hpos; [by apply Hx|].
        cbn [lookup list_lookup]. apply H5; lia.
    + intros [|k] line Hpos; [by apply Hx|].
      cbn [lookup list_lookup]. apply IH. lia.
Qed.

(** Where the new lines go: before the first line of the section, the
    first one excepted, that starts with [##], or behind the last line. *)
Lemma insertion_index_spec mm :
  insertion_index mm <= length mm
  /\ (forall k line, 0 < k -> k < insertion_index mm ->
        mm !! k = Some line -> is_header line = false)
  /\ (insertion_index mm < length mm ->
        0 < insertion_index mm
        /\ exists line, mm !! insertion_index mm = Some line
                        /\ is_header line = true).
Proof.
  unfold insertion_index. pose proof (first_header_spec 0 mm) as H.
  destruct (first_header 0 mm) as [j|]; simpl.
  - destruct H as (_ & H2 & H3 & (line & Hl & Hh) & H5).
    rewrite Nat.sub_0_r in *. cbn [Nat.add] in *.
    split_and!; [lia| |intros _; split; [lia|by exists line]].
    intros k line' Hk Hkj. apply H5; lia || done.
  - split_and!; [lia| |lia]. intros k line Hk _. by apply H.
Qed.

Lemma insert_research_output_sections_eq s research output existing :
  insert_research_output_sections s research output existing
  = before_mm s
    ++ take (insertion_index (mm_section s)) (mm_section s)
    ++ group_lines "Research" (mm_section s) (not_linked existing research)
    ++ group_lines "Output" (mm_section s) (not_linked existing output)
    ++ drop (insertion_index (mm_section s)) (mm_section s)
    ++ between_sections s ++ claude_section s ++ after_claude s.
Proof.
  unfold insert_research_output_sections.
  destruct (insertion_index_spec (mm_section s)) as [Hle _].
  destruct (_ <? _)%nat eqn:E; [done|].
  apply Nat.ltb_ge in E. by rewrite drop_ge.
Qed.

End Merge.

(** C1, as the code has it.  When no line of the outline is marker A, the
    merge keeps every line of the outline in place and puts the new
    entries behind the last of them: for each directory with new files,
    the group header and then one entry per new file. *)
Theorem no_marker_appends_at_end (content : string)
    (research_files output_files : list string) (existing_files : gset string) :
  forallb (fun line => negb (is_mm line)) (Str.split Str.nl content) = true ->
  insert_research_output_sections (parse_summary_structure content)
    research_files output_files existing_files
  = Str.split Str.nl content
    ++ fresh_group "Research" (not_linked existing_files research_files)
    ++ fresh_group "Output" (not_linked existing_files output_files).
Proof.
  intros Hno. unfold parse_summary_structure.
  rewrite (parse_lines_no_mm _ Hno), insert_research_output_sections_eq.
  simpl. by rewrite !group_lines_nil, !app_nil_r.
Qed.

Lemma no_marker_appends_at_end_witness :
  insert_research_output_sections (parse_summary_structure "# Summary
* [Intro](intro.md)")
    ["research/a.md"; "research/intro.md"] ["output/b.md"] {["research/intro.md"]}
  = ["# Summary"; "* [Intro](intro.md)";
     "  * [Research]"; "    * [A](research/a.md)";
     "  * [Output]"; "    * [B](output/b.md)"].
Proof.
  rewrite (no_marker_appends_at_end "# Summary
* [Intro](intro.md)"); [|reflexivity].
  vm_compute. reflexivity.
Defined.

(** C1, as the specification has it, fails: the outline below has no
    marker A, and yet the merge returns it with a group header and a link
    entry for the discovered file. *)
Lemma no_marker_still_inserts :
  let content := "# Summary" in
  forallb (fun line => negb (is_mm line)) (Str.split Str.nl content) = true
  /\ insert_research_output_sections (parse_summary_structure content)
       ["research/a.md"] [] ∅
     = ["# Summary"; "  * [Research]"; "    * [A](research/a.md)"]
  /\ insert_research_output_sections (parse_summary_structure content)
       ["research/a.md"] [] ∅
     <> Str.split Str.nl content.
Proof. vm_compute. split; [done|]. split; [done|]. discriminate. Qed.

(** C3, as the code has it.  The merge returns the five lists with the
    new lines put into marker A's body before its first line, the first
    one excepted, that starts with [##], or behind its last line if there
    is none.  The new lines are the research group and then the output
    group; a group is one entry per discovered path that is not in the
    existing-link index, in discovery order, preceded by the group header
    if and only if the group has an entry and no line of the body contains
    the header text [* [Research]] (or [* [Output]]). *)
Theorem insert_research_output_sections_spec (s : Structure)
    (research_files output_files : list string) (existing_files : gset string) :
  let mm := mm_section s in
  let idx := insertion_index mm in
  let new_research := not_linked existing_files research_files in
  let new_output := not_linked existing_files output_files in
  insert_research_output_sections s research_files output_files existing_files
  = before_mm s ++ take idx mm
    ++ header_if "Research" mm new_research
    ++ map (fun filepath => create_entry filepath 2) new_research
    ++ header_if "Output" mm new_output
    ++ map (fun filepath => create_entry filepath 2) new_output
    ++ drop idx mm
    ++ between_sections s ++ claude_section s ++ after_claude s
  /\ idx <= length mm
  /\ (forall k line, 0 < k -> k < idx -> mm !! k = Some line ->
        is_header line = false)
  /\ (idx < length mm ->
        0 < idx /\ exists line, mm !! idx = Some line /\ is_header line = true)
  /\ (forall p, p ∈ new_research <-> p ∈ research_files /\ p ∉ existing_files)
  /\ (forall p, p ∈ new_output <-> p ∈ output_files /\ p ∉ existing_files).
Proof.
  intros mm idx new_research new_output.
  destruct (insertion_index_spec mm) as (H1 & H2 & H3).
  split; [|split; [done|split; [done|split; [done|split]]]].
  - rewrite insert_research_output_sections_eq, !group_lines_eq.
    by rewrite <-!(assoc_L (++)).
  - intros p. unfold new_research, not_linked.
    rewrite list_elem_of_filter. tauto.
  - intros p. unfold new_output, not_linked.
    rewrite list_elem_of_filter. tauto.
Qed.

(** C3, as the specification has it, fails: no line of marker A's body is
    the header line ["  * [Research]"] and there is a new research file,
    yet the merge writes no header, because one line of the body contains
    the text [* [Research]]. *)
Lemma header_test_is_containment :
  let s := parse_summary_structure "## M+M
* [Research](research/README.md)" in
  let out := insert_research_output_sections s
               ["research/README.md"; "research/a.md"] []
               {["research/README.md"]} in
  not_linked {["research/README.md"]} ["research/README.md"; "research/a.md"]
    = ["research/a.md"]
  /\ ("  * [Research]" ∉ mm_section s)
  /\ ("  * [Research]" ∉ out)
  /\ out = ["## M+M"; "* [Research](research/README.md)";
            "    * [A](research/a.md)"].
Proof.
  vm_compute. split; [done|]. split; [|split; [|done]].
  - intros H. by repeat (inversion_clear H as [|? ? ? H']; rename H' into H).
  - intros H. by repeat (inversion_clear H as [|? ? ? H']; rename H' into H).
Qed.

(** ** The main function *)

Section Update.

Implicit Types (fs : FS) (flt : Fault) (content : string) (dry_run : bool).

Lemma match_both_nil {A B} (l1 l2 : list A) (X Y : B) :
  match l1, l2 with [], [] => X | _, _ => Y end
  = if bool_decide (l1 ++ l2 = []) then X else Y.
Proof. by destruct l1, l2. Qed.

Lemma update_summary_eq dry_run flt fs :
  update_summary dry_run flt fs =
  match summary_md fs with
  | None => (false, fs)
  | Some content =>
      if bool_decide (find_markdown_files RESEARCH_DIR (research_dir fs)
                      ++ find_markdown_files OUTPUT_DIR (output_dir fs) = [])
      then (true, fs)
      else if bool_decide (pending content fs = []) then (true, fs)
      else if dry_run then (true, fs)
      else atomic_write flt
             (ensure_newline
                (Str.join (String Str.nl "") (updated_lines_of content fs)))
             (set_bak (Some content) fs)
  end.
Proof.
  unfold update_summary, pending, updated_lines_of.
  destruct (summary_md fs) as [content|]; [|done].
  by rewrite !match_both_nil.
Qed.

(** The three ways a call ends: no outline; nothing to write (no file, no
    new file, or a dry run); or the backup followed by the [try] block. *)
Lemma update_summary_cases dry_run fs :
  (summary_md fs = None
   /\ forall flt, update_summary dry_run flt fs = (false, fs))
  \/ (exists content, summary_md fs = Some content
      /\ (pending content fs = [] \/ dry_run = true)
      /\ forall flt, update_summary dry_run flt fs = (true, fs))
  \/ (exists content, summary_md fs = Some content
      /\ pending content fs <> [] /\ dry_run = false
      /\ forall flt, update_summary dry_run flt fs
           = atomic_write flt
               (ensure_newline
                  (Str.join (String Str.nl "") (updated_lines_of content fs)))
               (set_bak (Some content) fs)).
Proof.
  destruct (summary_md fs) as [content|] eqn:Hc.
  2: { left. split; [done|]. intros flt. by rewrite update_summary_eq, Hc. }
  right.
  destruct (decide (find_markdown_files RESEARCH_DIR (research_dir fs)
                    ++ find_markdown_files OUTPUT_DIR (output_dir fs) = []))
    as [HRO|HRO].
  { left. exists content. split; [done|]. split.
    - left. unfold pending. apply app_eq_nil in HRO as [-> ->]. done.
    - intros flt. rewrite update_summary_eq, Hc.
      by rewrite bool_decide_eq_true_2. }
  destruct (decide (pending content fs = [])) as [HN|HN].
  { left. exists content. split; [done|]. split; [by left|].
    intros flt. rewrite update_summary_eq, Hc.
    rewrite bool_decide_eq_false_2 by done.
    by rewrite bool_decide_eq_true_2. }
  destruct dry_run.
  { left. exists content. split; [done|]. split; [by right|].
    intros flt. rewrite update_summary_eq, Hc.
    by rewrite !bool_decide_eq_false_2. }
  right. exists content. split_and!; [done..|].
  intros flt. rewrite update_summary_eq, Hc.
  by rewrite !bool_decide_eq_false_2.
Qed.

Lemma atomic_write_ok content fs :
  atomic_write NoFault content fs
  = (true, set_tmp None (set_summary (Some content) fs)).
Proof. reflexivity. Qed.

Lemma atomic_write_fault flt content fs :
  flt <> NoFault -> atomic_write flt content fs = (false, set_tmp None fs).
Proof. by destruct flt, fs as [? ? [?|] ? ?]. Qed.

Lemma endswith_refl (p : string) : Str.endswith p p = true.
Proof. destruct p; cbn [Str.endswith]; by rewrite String.eqb_refl. Qed.

Lemma endswith_app (p s : string) : Str.endswith p (s +:+ p) = true.
Proof.
  induction s as [|c s IH]; [apply endswith_refl|].
  rewrite str_app_cons. cbn [Str.endswith]. rewrite IH. apply orb_true_r.
Qed.

Lemma ensure_newline_ends (s : string) :
  Str.endswith (String Str.nl "") (ensure_newline s) = true.
Proof.
  unfold ensure_newline.
  destruct (Str.endswith _ s) eqn:E; [done|]. apply endswith_app.
Qed.

End Update.

(** C2, as the code has it.  Whenever a run that is not a dry run succeeds
    and changes the outline, the content written is the merged lines joined
    by line breaks, with one line break added if and only if the joined
    text does not end in one; so the written content ends with at least
    one line break. *)
Theorem written_content_ends_with_newline (flt : Fault) (fs fs' : FS) :
  update_summary false flt fs = (true, fs') ->
  summary_md fs' <> summary_md fs ->
  exists content,
    summary_md fs = Some content
    /\ let joined := Str.join (String Str.nl "") (updated_lines_of content fs) in
       summary_md fs'
       = Some (if Str.endswith (String Str.nl "") joined then joined
               else joined +:+ String Str.nl "")
       /\ forall written, summary_md fs' = Some written ->
            Str.endswith (String Str.nl "") written = true.
Proof.
  intros Hrun Hchg.
  destruct (update_summary_cases false fs)
    as [[_ H]|[(content & Hc & _ & H)|(content & Hc & _ & _ & H)]];
    rewrite (H flt) in Hrun.
  - discriminate.
  - by injection Hrun as <-.
  - exists content. split; [done|].
    destruct (decide (flt = NoFault)) as [->|Hf].
    + rewrite atomic_write_ok in Hrun. injection Hrun as <-. simpl.
      split; [done|]. intros written [= <-]. apply ensure_newline_ends.
    + rewrite atomic_write_fault in Hrun by done. discriminate.
Qed.

Lemma written_content_ends_with_newline_witness :
  exists content,
    Some "# Summary" = Some content
    /\ let joined := Str.join (String Str.nl "")
         (updated_lines_of content
            (mkFS (Some "# Summary") None None (Some ["a.md"]) None)) in
       Some "# Summary
  * [Research]
    * [A](research/a.md)
" = Some (if Str.endswith (String Str.nl "") joined then joined
               else joined +:+ String Str.nl "")
       /\ forall written, Some "# Summary
  * [Research]
    * [A](research/a.md)
" = Some written ->
            Str.endswith (String Str.nl "") written = true.
Proof.
  apply (written_content_ends_with_newline NoFault
    (mkFS (Some "# Summary") None None (Some ["a.md"]) None)
    (mkFS (Some "# Summary
  * [Research]
    * [A](research/a.md)
") (Some "# Summary") None (Some ["a.md"]) None)).
  - vm_compute. reflexivity.
  - discriminate.
Defined.

(** C2, as the specification has it, fails: the outline below ends in two
    line breaks, behind a section that follows marker A's body; the run
    succeeds and the content it writes still ends in two line breaks. *)
Lemma two_trailing_newlines_survive :
  let fs := mkFS (Some "## M+M
## Notes

") None None (Some ["a.md"]) None in
  let written := "## M+M
  * [Research]
    * [A](research/a.md)
## Notes

" in
  fst (update_summary false NoFault fs) = true
  /\ summary_md (snd (update_summary false NoFault fs)) = Some written
  /\ Str.endswith (String Str.nl (String Str.nl "")) written = true.
Proof. vm_compute. done. Qed.

(** C7.  A fault in the [try] block (opening, writing or renaming the
    temporary file) makes the block return [False] with the temporary file
    gone and every other file as it was, the outline included; a fault-free
    block puts the new content in the outline.  The exit status is 1 when
    the outline does not exist, 0 when it exists and no fault strikes (a
    run with nothing to do included), and 1 when a fault strikes a run
    that would otherwise have changed the file system; whenever the status
    is 1 the outline is what it was, and after a fault the temporary file
    does not exist. *)
Theorem write_failure_leaves_outline (argv : list string) (fs : FS) :
  (forall flt content, flt <> NoFault ->
     atomic_write flt content fs = (false, set_tmp None fs))
  /\ (forall content,
        atomic_write NoFault content fs
        = (true, set_tmp None (set_summary (Some content) fs)))
  /\ (summary_md fs = None -> forall flt, main argv flt fs = (1, fs))
  /\ (summary_md fs <> None -> fst (main argv NoFault fs) = 0)
  /\ (forall flt, flt <> NoFault -> snd (main argv NoFault fs) <> fs ->
        fst (main argv flt fs) = 1
        /\ summary_md (snd (main argv flt fs)) = summary_md fs
        /\ summary_tmp (snd (main argv flt fs)) = None)
  /\ (forall flt, fst (main argv flt fs) = 1 ->
        summary_md (snd (main argv flt fs)) = summary_md fs
        /\ (summary_md fs <> None ->
            flt <> NoFault /\ summary_tmp (snd (main argv flt fs)) = None)).
Proof.
  split; [intros; by apply atomic_write_fault|].
  split; [intros; apply atomic_write_ok|].
  unfold main.
  destruct (update_summary_cases (bool_decide ("--dry-run" ∈ argv)) fs)
    as [[Hn H]|[(content & Hc & _ & H)|(content & Hc & _ & _ & H)]].
  - split_and!.
    + intros _ flt. by rewrite H.
    + congruence.
    + intros flt _. by rewrite H.
    + intros flt _. rewrite H. simpl. split; [done|congruence].
  - split_and!.
    + congruence.
    + intros _. by rewrite H.
    + intros flt _. by rewrite H.
    + intros flt. by rewrite H.
  - split_and!.
    + congruence.
    + intros _. by rewrite H, atomic_write_ok.
    + intros flt Hf _. rewrite H, atomic_write_fault by done. done.
    + intros flt. rewrite H.
      destruct (decide (flt = NoFault)) as [->|Hf].
      * by rewrite atomic_write_ok.
      * rewrite atomic_write_fault by done. done.
Qed.

Lemma write_failure_leaves_outline_witness :
  main [] (WriteFails "# Sum") (mkFS (Some "# Summary") None None (Some ["a.md"]) None)
  = (1, mkFS (Some "# Summary") (Some "# Summary") None (Some ["a.md"]) None)
  /\ main [] NoFault (mkFS None None None (Some ["a.md"]) None)
     = (1, mkFS None None None (Some ["a.md"]) None).
Proof.
  split.
  - destruct (write_failure_leaves_outline []
      (mkFS (Some "# Summary") None None (Some ["a.md"]) None))
      as (_ & _ & _ & _ & H & _).
    destruct (H (WriteFails "# Sum")) as (H1 & H2 & H3).
    + discriminate.
    + vm_compute. discriminate.
    + vm_compute. reflexivity.
  - destruct (write_failure_leaves_outline []
      (mkFS None None None (Some ["a.md"]) None))
      as (_ & _ & H & _).
    apply H. reflexivity.
Defined.

(** ** Existing-link extraction *)

Section Links.

Import LinkPattern.

Implicit Types (s t l r pre label q post p : string) (c : ascii)
               (k n : nat) (L : list string).

Lemma startswith_app_nl pat l r :
  Str.all not_nl pat = true ->
  Str.startswith pat (l +:+ String Str.nl r) = Str.startswith pat l.
Proof.
  revert l. induction pat as [|a pat IH]; intros l H; [done|].
  cbn [Str.all] in H. apply andb_true_iff in H as [Ha Hpat].
  destruct l as [|c l].
  - rewrite str_app_nil_l. cbn [Str.startswith].
    unfold not_nl in Ha. apply negb_true_iff in Ha. by rewrite Ha.
  - rewrite str_app_cons. cbn [Str.startswith]. by rewrite IH.
Qed.

Lemma startswith_split pat s :
  Str.startswith pat s = true -> exists rest, s = pat +:+ rest.
Proof.
  revert s. induction pat as [|a pat IH]; intros s; [by exists s|].
  destruct s as [|c s]; [done|]. cbn [Str.startswith].
  intros [->%Ascii.eqb_eq H]%andb_true_iff.
  destruct (IH _ H) as [rest ->]. by exists rest.
Qed.

(** *** Matches stay within a line *)

Lemma path_match_line l r :
  path_match (l +:+ String Str.nl r) = path_match l.
Proof.
  induction l as [|c l IH]; [done|].
  rewrite str_app_cons. cbn [path_match].
  assert (E : Str.startswith ".md)" (String c (l +:+ String Str.nl r))
              = Str.startswith ".md)" (String c l))
    by (by apply (startswith_app_nl ".md)" (String c l) r)).
  by rewrite E, IH.
Qed.

Lemma drop_2_app s t :
  Str.startswith "](" s = true -> Str.drop 2 (s +:+ t) = Str.drop 2 s +:+ t.
Proof.
  destruct s as [|a [|b s]]; cbn [Str.startswith]; try done.
  by rewrite andb_false_r.
Qed.

Lemma rest_match_line l r :
  rest_match (l +:+ String Str.nl r) = rest_match l.
Proof.
  unfold rest_match.
  rewrite (startswith_app_nl "](" l r) by done.
  destruct (Str.startswith "](" l) eqn:E; [|done].
  by rewrite drop_2_app, path_match_line.
Qed.

Lemma link_match_line l r :
  link_match (l +:+ String Str.nl r) = link_match l.
Proof.
  induction l as [|c l IH]; [done|].
  assert (E : rest_match (String c (l +:+ String Str.nl r))
              = rest_match (String c l))
    by apply (rest_match_line (String c l) r).
  rewrite str_app_cons. cbn [link_match]. by rewrite E, IH.
Qed.

(** *** What a match consists of *)

Lemma path_match_sound s p n :
  path_match s = Some (p, n) ->
  exists q rest, p = q +:+ ".md" /\ s = q +:+ ".md)" +:+ rest
    /\ n = String.length q + 4 /\ Str.all not_nl q = true.
Proof.
  revert p n. induction s as [|c s IH]; intros p n; [done|].
  cbn [path_match].
  destruct (Str.startswith ".md)" (String c s)) eqn:E.
  - intros [= <- <-]. destruct (startswith_split _ _ E) as [rest ->].
    by exists "", rest.
  - destruct (Ascii.eqb c Str.nl) eqn:Hc; [done|].
    destruct (path_match s) as [[p' n']|]; [|done].
    intros [= <- <-].
    destruct (IH p' n' eq_refl) as (q & rest & -> & -> & -> & Hq).
    exists (String c q), rest. split_and!; try done.
    cbn [Str.all]. unfold not_nl at 1. by rewrite Hc, Hq.
Qed.

Lemma rest_match_sound s p n :
  rest_match s = Some (p, n) ->
  exists q rest, p = q +:+ ".md" /\ s = "](" +:+ q +:+ ".md)" +:+ rest
    /\ n = String.length q + 6 /\ Str.all not_nl q = true.
Proof.
  unfold rest_match. destruct (Str.startswith "](" s) eqn:E; [|done].
  destruct (startswith_split _ _ E) as [t ->].
  change (Str.drop 2 ("](" +:+ t)) with t.
  destruct (path_match t) as [[p' n']|] eqn:Ht; [|done].
  intros [= <- <-].
  destruct (path_match_sound _ _ _ Ht) as (q & rest & -> & -> & -> & Hq).
  exists q, rest. split_and!; try done. lia.
Qed.

Lemma link_match_sound s p n :
  link_match s = Some (p, n) ->
  exists label q rest,
    p = q +:+ ".md" /\ s = label +:+ "](" +:+ q +:+ ".md)" +:+ rest
    /\ n = String.length label + String.length q + 6
    /\ Str.all not_nl label = true /\ Str.all not_nl q = true.
Proof.
  revert p n. induction s as [|c s IH]; intros p n.
  { cbn [link_match]. by unfold rest_match. }
  cbn [link_match].
  destruct (rest_match (String c s)) as [[p0 n0]|] eqn:E.
  - intros [= <- <-].
    destruct (rest_match_sound _ _ _ E) as (q & rest & -> & Hs & -> & Hq).
    exists "", q, rest. by rewrite Hs.
  - destruct (Ascii.eqb c Str.nl) eqn:Hc; [done|].
    destruct (link_match s) as [[p' n']|]; [|done].
    intros [= <- <-].
    destruct (IH p' n' eq_refl) as (label & q & rest & -> & -> & -> & Hl & Hq).
    exists (String c label), q, rest. split_and!; try done.
    cbn [Str.all]. unfold not_nl at 1. by rewrite Hc, Hl.
Qed.

Lemma link_match_bound s p n :
  link_match s = Some (p, n) -> n <= String.length s.
Proof.
  intros (label & q & rest & _ & -> & -> & _)%link_match_sound.
  rewrite !str_length_app. simpl. lia.
Qed.

(** *** The scan of a text is the scan of its lines *)

Lemma finditer_line k l r :
  k <= String.length l ->
  finditer k (l +:+ String Str.nl r) = finditer k l ++ finditer 0 r.
Proof.
  revert k. induction l as [|c l IH]; intros k Hk.
  { simpl in Hk. by replace k with 0 by lia. }
  rewrite str_app_cons. cbn [finditer]. simpl in Hk.
  destruct k as [|k]; [|apply IH; lia].
  destruct (Ascii.eqb c "["); [|apply IH; lia].
  rewrite link_match_line.
  destruct (link_match l) as [[p n]|] eqn:E; [|apply IH; lia].
  rewrite IH by (by apply link_match_bound in E). done.
Qed.

Lemma finditer_join L :
  finditer 0 (Str.join nlS L) = concat (map (finditer 0) L).
Proof.
  induction L as [|x L IH]; [done|].
  destruct L as [|y L]; [simpl; by rewrite app_nil_r|].
  rewrite join_cons by done.
  change (x +:+ nlS +:+ Str.join nlS (y :: L))
    with (x +:+ String Str.nl (Str.join nlS (y :: L))).
  rewrite finditer_line by lia. by rewrite IH.
Qed.

Lemma finditer_past k s : String.length s <= k -> finditer k s = [].
Proof.
  revert k. induction s as [|c s IH]; intros k Hk; [done|].
  simpl in Hk. destruct k as [|k]; [lia|]. cbn [finditer]. apply IH. lia.
Qed.

Lemma finditer_skip s post :
  finditer (String.length s) (s +:+ post) = finditer 0 post.
Proof. induction s as [|c s IH]; [done|]. by rewrite str_app_cons. Qed.

Lemma finditer_no_open pre s :
  Str.all not_open pre = true -> finditer 0 (pre +:+ s) = finditer 0 s.
Proof.
  induction pre as [|c pre IH]; [done|]. cbn [Str.all].
  intros [Hc Hpre]%andb_true_iff. rewrite str_app_cons. cbn [finditer].
  unfold not_open in Hc. apply negb_true_iff in Hc. rewrite Hc. by apply IH.
Qed.

End Links.

Section LinkShapes.

Import LinkPattern.

Implicit Types (s t l r pre label q post p : string) (c : ascii)
               (k n : nat) (L : list string).

(** *** Every match is a link of the text *)

Lemma finditer_sound k s p :
  p ∈ finditer k s ->
  exists pre label q post,
    p = q +:+ ".md"
    /\ s = pre +:+ "[" +:+ label +:+ "](" +:+ q +:+ ".md)" +:+ post
    /\ Str.all not_nl label = true /\ Str.all not_nl q = true.
Proof.
  revert k. induction s as [|c s IH]; intros k; [by intros ?%elem_of_nil|].
  assert (Hrec : forall k', p ∈ finditer k' s ->
    exists pre label q post,
      p = q +:+ ".md"
      /\ String c s = pre +:+ "[" +:+ label +:+ "](" +:+ q +:+ ".md)" +:+ post
      /\ Str.all not_nl label = true /\ Str.all not_nl q = true).
  { intros k' (pre & label & q & post & -> & -> & Hl & Hq)%IH.
    by exists (String c pre), label, q, post. }
  cbn [finditer]. destruct k as [|k]; [|apply Hrec].
  destruct (Ascii.eqb_spec c "[") as [->|_]; [|apply Hrec].
  destruct (link_match s) as [[p0 n]|] eqn:E; [|apply Hrec].
  intros [->|Hin]%elem_of_cons; [|by apply Hrec in Hin].
  destruct (link_match_sound _ _ _ E) as (label & q & rest & -> & -> & _ & Hl & Hq).
  by exists "", label, q, rest.
Qed.

(** *** A link with a plain label and a plain path is matched *)

Lemma startswith_app_long pat s t :
  String.length pat <= String.length s ->
  Str.startswith pat (s +:+ t) = Str.startswith pat s.
Proof.
  revert s. induction pat as [|a pat IH]; intros s Hlen; [done|].
  destruct s as [|c s]; [simpl in Hlen; lia|].
  rewrite str_app_cons. cbn [Str.startswith]. rewrite IH; [done|].
  simpl in Hlen. lia.
Qed.

Lemma path_match_complete q post :
  Str.all not_nl q = true ->
  Str.contains ".md)" (q +:+ ".md") = false ->
  path_match (q +:+ ".md)" +:+ post)
  = Some (q +:+ ".md", String.length q + 4).
Proof.
  induction q as [|c q IH]; [done|]. intros Hq Hno.
  rewrite (str_app_cons c q) in Hno. cbn [Str.contains] in Hno.
  apply orb_false_iff in Hno as [Hhere Hno].
  assert (E : Str.startswith ".md)" (String c (q +:+ ".md)" +:+ post)) = false).
  { etrans; [|exact Hhere].
    replace (String c (q +:+ ".md)" +:+ post))
      with (String c (q +:+ ".md") +:+ String ")" post).
    - apply startswith_app_long. simpl. rewrite str_length_app. simpl. lia.
    - rewrite (str_app_cons c (q +:+ ".md")), (str_app_assoc q ".md").
      reflexivity. }
  rewrite (str_app_cons c q). cbn [path_match]. rewrite E.
  cbn [Str.all] in Hq. apply andb_true_iff in Hq as [Hc%negb_true_iff Hq].
  rewrite Hc. by rewrite (IH Hq Hno).
Qed.

Lemma link_match_complete label q post :
  Str.all label_char label = true ->
  Str.all not_nl q = true ->
  Str.contains ".md)" (q +:+ ".md") = false ->
  link_match (label +:+ "](" +:+ q +:+ ".md)" +:+ post)
  = Some (q +:+ ".md", String.length label + String.length q + 6).
Proof.
  intros Hl Hq Hno. induction label as [|c label IH].
  - rewrite str_app_nil_l.
    change ("](" +:+ q +:+ ".md)" +:+ post)
      with (String "]" (String "(" (q +:+ ".md)" +:+ post))).
    cbn [link_match]. unfold rest_match. cbn [Str.startswith Str.drop].
    cbn. rewrite (path_match_complete q post Hq Hno). simpl.
    do 2 f_equal. lia.
  - cbn [Str.all] in Hl. apply andb_true_iff in Hl as [Hc Hl].
    apply andb_true_iff in Hc as [Hn%negb_true_iff Hb%negb_true_iff].
    rewrite (str_app_cons c label). cbn [link_match]. unfold rest_match at 1.
    cbn [Str.startswith]. rewrite (Ascii.eqb_sym "]" c), Hb. cbn [andb].
    by rewrite Hn, (IH Hl).
Qed.

(** A link whose label has no closing bracket and whose path does not
    contain [.md)], on a line with no opening bracket before it, is the
    first match of the line. *)
Lemma finditer_link pre label q post :
  Str.all not_open pre = true ->
  Str.all label_char label = true ->
  Str.all not_nl q = true ->
  Str.contains ".md)" (q +:+ ".md") = false ->
  finditer 0 (pre +:+ "[" +:+ label +:+ "](" +:+ q +:+ ".md)" +:+ post)
  = (q +:+ ".md") :: finditer 0 post.
Proof.
  intros Hpre Hl Hq Hno. rewrite finditer_no_open by done.
  change ("[" +:+ label +:+ "](" +:+ q +:+ ".md)" +:+ post)
    with (String "[" (label +:+ "](" +:+ q +:+ ".md)" +:+ post)).
  cbn [finditer]. rewrite Ascii.eqb_refl.
  rewrite link_match_complete by done. f_equal.
  replace (String.length label + String.length q + 6)
    with (String.length (label +:+ "](" +:+ q +:+ ".md)")).
  - rewrite <-finditer_skip with (s := label +:+ "](" +:+ q +:+ ".md)").
    by rewrite !str_app_assoc.
  - rewrite !str_length_app. simpl. lia.
Qed.

End LinkShapes.

Section Index.

Implicit Types (s t p q line content : string) (c : ascii)
               (L : list string) (fs : FS).

Lemma elem_of_extract p s :
  p ∈ extract_existing_links s <-> p ∈ LinkPattern.finditer 0 s.
Proof. unfold extract_existing_links. by rewrite elem_of_list_to_set. Qed.

(** The index of a text is the union of the indexes of its lines. *)
Lemma elem_of_extract_join p L :
  p ∈ extract_existing_links (Str.join nlS L) <->
  exists line, line ∈ L /\ p ∈ extract_existing_links line.
Proof.
  rewrite elem_of_extract, finditer_join, list_elem_of_In, in_concat.
  split.
  - intros (m & (line & <- & Hl)%in_map_iff & Hp).
    exists line. by rewrite elem_of_extract, !list_elem_of_In.
  - intros (line & Hl & Hp). exists (LinkPattern.finditer 0 line).
    apply elem_of_extract in Hp. rewrite list_elem_of_In in Hl, Hp.
    split; [|done]. apply in_map_iff. eauto.
Qed.

Lemma elem_of_extract_lines p content :
  p ∈ extract_existing_links content <->
  exists line, line ∈ Str.split Str.nl content
               /\ p ∈ extract_existing_links line.
Proof.
  rewrite <-elem_of_extract_join. unfold nlS. by rewrite join_split.
Qed.

End Index.

(** *** Lines made of links *)

Lemma finditer_links (links : list Link) (tail : string) :
  Forall (fun k => plain_link k = true) links ->
  LinkPattern.finditer 0 (links_text links tail)
  = map link_path links ++ LinkPattern.finditer 0 tail.
Proof.
  induction 1 as [|k links Hk _ IH]; [done|]. cbn [links_text map].
  unfold plain_link in Hk.
  apply andb_true_iff in Hk as [Hk Hno%negb_true_iff].
  apply andb_true_iff in Hk as [Hk Hq].
  apply andb_true_iff in Hk as [Hg Hl].
  rewrite finditer_link by done. by rewrite IH.
Qed.

(** C6, as the code has it.  The existing-link index is the set of the
    paths that the leftmost, non-overlapping matches of the pattern
    capture.  Every member of the index is the path of a link of the
    text: the text reads [[label](path)] somewhere, with a path that
    ends in [.md] and with no line break in the label or the path.  The
    index of a text is the union of the indexes of its lines, wherever
    they stand, so it depends on which lines the text has and not on how
    often or in which order it has them.  On a line that is made of links
    with no closing bracket in their label and no [.md)] in their path,
    with no opening bracket between them, the pattern finds the paths of
    all the links, so each of them is in the index of a text that has the
    line.  A path of the index is in neither list of new files, so the
    merge writes no entry for it. *)
Theorem extract_existing_links_spec (content : string) :
  (forall p, p ∈ extract_existing_links content ->
     exists pre label q post,
       p = q +:+ ".md"
       /\ content = pre +:+ "[" +:+ label +:+ "](" +:+ q +:+ ".md)" +:+ post
       /\ Str.all not_nl label = true /\ Str.all not_nl q = true)
  /\ (forall L p,
        p ∈ extract_existing_links (Str.join nlS L) <->
        exists line, line ∈ L /\ p ∈ extract_existing_links line)
  /\ (forall L L', (forall line, line ∈ L <-> line ∈ L') ->
        extract_existing_links (Str.join nlS L)
        = extract_existing_links (Str.join nlS L'))
  /\ (forall links tail,
        Forall (fun k => plain_link k = true) links ->
        LinkPattern.finditer 0 (links_text links tail)
        = map link_path links ++ LinkPattern.finditer 0 tail)
  /\ (forall L links tail k,
        Forall (fun k => plain_link k = true) links ->
        links_text links tail ∈ L -> k ∈ links ->
        link_path k ∈ extract_existing_links (Str.join nlS L))
  /\ (forall p files,
        p ∈ extract_existing_links content ->
        p ∉ not_linked (extract_existing_links content) files).
Proof.
  split_and!.
  - intros p Hp%elem_of_extract. by apply finditer_sound in Hp.
  - intros L p. apply elem_of_extract_join.
  - intros L L' HL. apply set_eq. intros p.
    rewrite !elem_of_extract_join. by setoid_rewrite HL.
  - apply finditer_links.
  - intros L links tail k Hplain Hin Hk.
    apply elem_of_extract_join. eexists. split; [exact Hin|].
    rewrite elem_of_extract, finditer_links by done.
    apply elem_of_app. left. apply list_elem_of_fmap. by exists k.
  - intros p files Hp. unfold not_linked. rewrite list_elem_of_filter. tauto.
Qed.

Lemma extract_existing_links_spec_witness :
  "output/b.md" ∈ extract_existing_links
    (Str.join nlS ["## M+M";
                   "    * [A](research/a.md), [B](output/b.md)";
                   "## Next"]).
Proof.
  destruct (extract_existing_links_spec "") as (_ & _ & _ & _ & H & _).
  apply (H _ [mkLink "    * " "A" "research/a"; mkLink ", " "B" "output/b"] ""
           (mkLink ", " "B" "output/b")).
  - repeat constructor.
  - apply list_elem_of_In. simpl. tauto.
  - apply list_elem_of_In. simpl. tauto.
Defined.

(** C6, as the specification has it, fails: the second line of the
    outline below links [research/plan.md], but the pattern, which began
    a match at the link before it, takes everything up to the first
    [.md)] for the path of that link.  The path is not in the index and
    the merge writes an entry for it. *)
Lemma link_behind_other_link_is_missed :
  let line := "* [Site](https://example.com), [Plan](research/plan.md)" in
  let content := Str.join nlS ["## M+M"; line] in
  let existing_files := extract_existing_links content in
  line = "* [Site](https://example.com), " +:+ "[" +:+ "Plan" +:+ "]("
         +:+ "research/plan.md" +:+ ")"
  /\ LinkPattern.finditer 0 content
     = ["https://example.com), [Plan](research/plan.md"]
  /\ ("research/plan.md" ∉ existing_files)
  /\ insert_research_output_sections (parse_summary_structure content)
       ["research/plan.md"] [] existing_files
     = ["## M+M"; line; "  * [Research]"; "    * [Plan](research/plan.md)"].
Proof.
  split; [reflexivity|]. split; [reflexivity|]. split.
  - apply (bool_decide_eq_false_1 _). vm_compute. reflexivity.
  - vm_compute. reflexivity.
Qed.

(** ** Running the tool twice *)

Section Idempotence.

Implicit Types (s t p q line content : string) (c : ascii)
               (L files : list string) (fs : FS) (f : ascii -> bool).

Lemma label_char_not_nl c : label_char c = true -> not_nl c = true.
Proof. unfold label_char, not_nl. by intros [-> _]%andb_true_iff. Qed.

Lemma label_char_case c :
  label_char c = true ->
  label_char (Str.toupper c) = true /\ label_char (Str.tolower c) = true.
Proof. by destruct c as [[] [] [] [] [] [] [] []]. Qed.

(** *** The characters of a title come from the path *)

Lemma all_replace f a b s :
  f b = true -> Str.all f s = true -> Str.all f (Str.replace a b s) = true.
Proof.
  intros Hb. induction s as [|c s IH]; [done|]. cbn [Str.all Str.replace].
  intros [Hc Hs]%andb_true_iff. rewrite (IH Hs).
  destruct (Ascii.eqb c a); by rewrite ?Hb, ?Hc.
Qed.

Lemma all_title_from (b : bool) s :
  Str.all label_char s = true ->
  Str.all label_char (Str.title_from b s) = true.
Proof.
  revert b. induction s as [|c s IH]; intros b; [done|].
  cbn [Str.all Str.title_from]. intros [Hc Hs]%andb_true_iff.
  destruct (label_char_case c Hc) as [Hu Hl].
  destruct (Str.islower c), (Str.isupper c), b; cbn [Str.all];
    by rewrite ?Hc, ?Hu, ?Hl, IH.
Qed.

Lemma all_stem f p : Str.all f p = true -> Str.all f (PathLib.stem p) = true.
Proof.
  intros Hp.
  assert (Hn : Str.all f (PathLib.name p) = true).
  { assert (Hall : Forall (fun x => Str.all f x = true) (PathLib.parts p)).
    { apply Forall_forall. intros x [_ Hx]%list_elem_of_filter.
      revert x Hx. by apply Forall_forall, split_all. }
    unfold PathLib.name.
    induction Hall as [|x l Hx Hl IH]; [done|].
    destruct l; [done|]. apply IH. }
  unfold PathLib.stem. destruct (Str.rfind "." _) as [i|]; [|done].
  destruct (_ && _); [|done]. by apply all_take.
Qed.

Lemma all_filename_to_title p :
  Str.all label_char p = true ->
  Str.all label_char (filename_to_title p) = true.
Proof.
  intros Hp. unfold filename_to_title, Str.title.
  apply all_title_from. apply all_replace; [done|].
  apply all_replace; [done|]. by apply all_stem.
Qed.

(** *** The entry of a plain path puts the path into the index *)

Lemma endswith_split suf s :
  Str.endswith suf s = true -> exists q, s = q +:+ suf.
Proof.
  induction s as [|c s IH]; cbn [Str.endswith].
  - rewrite orb_false_r. intros ->%String.eqb_eq. by exists "".
  - intros [->%String.eqb_eq|H]%orb_true_iff; [by exists ""|].
    destruct (IH H) as [q ->]. by exists (String c q).
Qed.

Lemma extract_create_entry p :
  plain_path p = true -> Str.endswith ".md" p = true ->
  p ∈ extract_existing_links (create_entry p 2).
Proof.
  intros [Hp Hno%negb_true_iff]%andb_true_iff [q ->]%endswith_split.
  assert (Hl : Str.all label_char (filename_to_title (q +:+ ".md")) = true)
    by (by apply all_filename_to_title).
  assert (Hq : Str.all not_nl q = true).
  { rewrite all_app in Hp. apply andb_true_iff in Hp as [Hq _].
    revert Hq. apply all_impl, label_char_not_nl. }
  unfold create_entry.
  replace (Str.times "  " 2 +:+ "* [" +:+ filename_to_title (q +:+ ".md")
           +:+ "](" +:+ (q +:+ ".md") +:+ ")")
    with ("    * " +:+ "[" +:+ filename_to_title (q +:+ ".md")
          +:+ "](" +:+ q +:+ ".md)" +:+ "").
  - rewrite elem_of_extract, finditer_link by done. apply elem_of_cons. by left.
  - rewrite (str_app_assoc q ".md" ")"). reflexivity.
Qed.

(** *** What the discovered paths look like *)

Lemma endswith_app_l suf t s :
  Str.endswith suf s = true -> Str.endswith suf (t +:+ s) = true.
Proof.
  intros H. induction t as [|c t IH]; [done|].
  rewrite str_app_cons. cbn [Str.endswith]. rewrite IH. apply orb_true_r.
Qed.

Lemma find_markdown_files_md dir listing p :
  p ∈ find_markdown_files dir listing -> Str.endswith ".md" p = true.
Proof.
  intros (entries & n & _ & _ & Hn & ->)%elem_of_find_markdown_files.
  apply endswith_app_l. by apply (endswith_app_l _ "/").
Qed.

(** *** The index after a run *)

Lemma not_linked_nil (existing : gset string) files :
  (forall p, p ∈ files -> p ∈ existing) -> not_linked existing files = [].
Proof.
  unfold not_linked. induction files as [|x files IH]; intros H; [done|].
  rewrite filter_cons_False.
  - apply IH. intros p Hp. apply H. by right.
  - intros Hx. apply Hx, H. by left.
Qed.

Lemma extract_ensure_newline p s :
  p ∈ extract_existing_links (ensure_newline s) <->
  p ∈ extract_existing_links s.
Proof.
  unfold ensure_newline. destruct (Str.endswith _ s); [done|].
  rewrite !elem_of_extract.
  rewrite (finditer_line 0 s "") by lia. simpl. by rewrite app_nil_r.
Qed.

Lemma elem_of_updated_lines content fs line :
  line ∈ updated_lines_of content fs <->
  line ∈ Str.split Str.nl content
  \/ line ∈ group_lines "Research"
       (mm_section (parse_summary_structure content))
       (not_linked (extract_existing_links content)
          (find_markdown_files RESEARCH_DIR (research_dir fs)))
  \/ line ∈ group_lines "Output"
       (mm_section (parse_summary_structure content))
       (not_linked (extract_existing_links content)
          (find_markdown_files OUTPUT_DIR (output_dir fs))).
Proof.
  unfold updated_lines_of. rewrite insert_research_output_sections_eq.
  set (st := parse_summary_structure content).
  rewrite <-(parse_lines_permutation (Str.split Str.nl content)).
  fold (parse_summary_structure content). fold st. unfold segments.
  assert (Hmm : line ∈ mm_section st <->
                line ∈ take (insertion_index (mm_section st)) (mm_section st)
                \/ line ∈ drop (insertion_index (mm_section st)) (mm_section st)).
  { by rewrite <-elem_of_app, take_drop. }
  rewrite !elem_of_app, Hmm. tauto.
Qed.

Lemma extract_updated content fs p :
  p ∈ extract_existing_links content
  \/ (p ∈ pending content fs /\ plain_path p = true) ->
  p ∈ extract_existing_links
        (ensure_newline (Str.join nlS (updated_lines_of content fs))).
Proof.
  rewrite extract_ensure_newline, elem_of_extract_join.
  intros [Hp|[Hp Hplain]].
  - apply elem_of_extract_lines in Hp as (line & Hl & Hp).
    exists line. split; [|done]. apply elem_of_updated_lines. by left.
  - exists (create_entry p 2). split.
    + apply elem_of_updated_lines. right. rewrite !group_lines_eq.
      unfold pending in Hp. apply elem_of_app in Hp as [Hp|Hp]; [left|right];
        apply elem_of_app; right; apply list_elem_of_fmap; by exists p.
    + apply extract_create_entry; [done|].
      unfold pending, not_linked in Hp.
      apply elem_of_app in Hp as [[_ Hp]%list_elem_of_filter
                                 |[_ Hp]%list_elem_of_filter];
        by apply find_markdown_files_md in Hp.
Qed.

End Idempotence.

(** C5, as the specification has it, fails: the research directory below
    holds a file whose name contains [.md)].  The pattern captures the
    path of its entry only up to the first [.md)], so the second run does
    not find the path in the index and writes the entry once more. *)
Lemma odd_name_is_added_again :
  let fs := mkFS (Some "## M+M") None None (Some ["notes.md).md"]) None in
  let fs1 := snd (update_summary false NoFault fs) in
  let fs2 := snd (update_summary false NoFault fs1) in
  summary_md fs1 = Some "## M+M
  * [Research]
    * [Notes.Md)](research/notes.md).md)
"
  /\ summary_md fs2 = Some "## M+M
  * [Research]
    * [Notes.Md)](research/notes.md).md)

    * [Notes.Md)](research/notes.md).md)
"
  /\ summary_md fs2 <> summary_md fs1.
Proof. vm_compute. split; [done|]. split; [done|]. discriminate. Qed.

(** * Further properties of the script *)

(** ** The shape of the five lists *)

Section Shape.

Implicit Types (l pre body rest : list string) (x a line : string)
               (st : ParseState) (s : Structure) (k : SectionKey).

Local Arguments is_mm : simpl never.
Local Arguments is_claude : simpl never.
Local Arguments is_header : simpl never.

Lemma is_mm_header x : is_mm x = true -> is_header x = true.
Proof. unfold is_mm, is_header. by intros ->%String.eqb_eq. Qed.

Lemma is_claude_header x : is_claude x = true -> is_header x = true.
Proof. unfold is_claude, is_header. by intros ->%String.eqb_eq. Qed.

Lemma first_is_snoc (p : string -> bool) l x :
  first_is p l -> (l = [] -> p x = true) -> first_is p (l ++ [x]).
Proof. destruct l; simpl; auto. Qed.

Lemma section_of_append_line k k' x s :
  section_of k' (append_line k x s)
  = if decide (k = k') then section_of k s ++ [x] else section_of k' s.
Proof. by destruct k, k', s. Qed.

(** What the loop keeps true, beside the shape of the lists: the list of
    the current key is not empty unless the key is the first, and a key
    other than the first is current only once marker A has been met. *)
Definition shape_inv st : Prop :=
  sections_well_formed (structure st)
  /\ (current_section st <> BeforeMM ->
      section_of (current_section st) (structure st) <> []
      /\ mm_found st = true).

Lemma snoc_not_nil l x : l ++ [x] <> [].
Proof. by destruct l. Qed.

Ltac shape_finish :=
  repeat match goal with
  | |- _ /\ _ => split
  | |- first_is _ (_ ++ [_]) =>
      apply first_is_snoc; [assumption|intros; try assumption; try congruence]
  | |- Forall _ (_ ++ [_]) =>
      apply Forall_app; split;
      [assumption|repeat constructor; try assumption; try congruence]
  | |- _ -> _ => intros ?
  | |- _ ++ [_] <> [] => apply snoc_not_nil
  end; try done; try congruence.

Lemma parse_step_shape st x : shape_inv st -> shape_inv (parse_step st x).
Proof.
  unfold parse_step. rewrite transition_eq.
  destruct st as [cur mf cf [b m bt c a]].
  unfold shape_inv, sections_well_formed. cbn.
  intros [(Hb & Hm1 & Hm & Ht1 & Ht & Hc1 & Hc & Ha1 & Ha) Hcur].
  destruct (is_mm x) eqn:Hx; [cbn; shape_finish|].
  destruct (is_claude x) eqn:Hy.
  { destruct mf; cbn; shape_finish. }
  destruct (is_header x) eqn:Hh; rewrite ?andb_true_r, ?andb_false_r;
    destruct cur; repeat (case_bool_decide; try congruence); cbn in *;
    try (destruct Hcur as [Hne Hf]; [discriminate|]);
    shape_finish.
Qed.

Lemma parse_lines_shape l : shape_inv (parse_lines l).
Proof.
  induction l as [|x l IH] using rev_ind.
  - split; [|done]. by repeat split.
  - rewrite parse_lines_snoc. by apply parse_step_shape.
Qed.

End Shape.

(** X1.  Whatever the outline, the five lists of its parse have a fixed
    shape: the first holds no marker-A line; marker A's body, when not
    empty, starts with a marker-A line and its only header lines are
    marker-A lines; the Claude body, when not empty, starts with a
    marker-B line and its only header lines are marker-B lines; each of
    the two other lists, when not empty, starts with a header line and
    holds no marker line. *)
Theorem parse_sections_well_formed (content : string) :
  sections_well_formed (parse_summary_structure content).
Proof. apply parse_lines_shape. Qed.

(** ** Where the new lines go in a well-formed outline *)

Section Placement.

Implicit Types (l pre body rest : list string) (x a line : string)
               (st : ParseState) (s : Structure).

Local Arguments is_mm : simpl never.
Local Arguments is_claude : simpl never.
Local Arguments is_header : simpl never.

Lemma not_header_not_marker x :
  is_header x = false -> is_mm x = false /\ is_claude x = false.
Proof.
  intros Hx. split.
  - destruct (is_mm x) eqn:E; [|done]. apply is_mm_header in E. congruence.
  - destruct (is_claude x) eqn:E; [|done].
    apply is_claude_header in E. congruence.
Qed.

(** Lines that are no headers, met inside marker A's body, join the body. *)
Lemma foldl_body st body :
  forallb (fun x => negb (is_header x)) body = true ->
  current_section st = MMSection ->
  foldl parse_step st body
  = mkParseState MMSection (mm_found st) (claude_found st)
      (mkStructure (before_mm (structure st)) (mm_section (structure st) ++ body)
         (between_sections (structure st)) (claude_section (structure st))
         (after_claude (structure st))).
Proof.
  revert st. induction body as [|x body IH]; intros st Hb Hc.
  { destruct st as [? ? ? []]. simpl in *. by rewrite Hc, app_nil_r. }
  cbn [forallb] in Hb. apply andb_true_iff in Hb as [Hx%negb_true_iff Hb].
  destruct (not_header_not_marker x Hx) as [Hm Hcl].
  cbn [foldl]. rewrite IH; [|done|].
  - unfold parse_step. rewrite transition_eq, Hm, Hcl, Hx, !andb_false_r.
    rewrite Hc. cbn. by rewrite <-(assoc_L (++)).
  - unfold parse_step. by rewrite transition_eq, Hm, Hcl, Hx, !andb_false_r.
Qed.

(** Outside marker A's body, and as long as no marker-A line comes, the
    body is not touched. *)
Lemma foldl_outside_mm st l :
  forallb (fun x => negb (is_mm x)) l = true ->
  current_section st <> MMSection ->
  mm_section (structure (foldl parse_step st l)) = mm_section (structure st).
Proof.
  revert st. induction l as [|x l IH]; intros st Hl Hc; [done|].
  cbn [forallb] in Hl. apply andb_true_iff in Hl as [Hx%negb_true_iff Hl].
  cbn [foldl]. rewrite IH; [|done|].
  - rewrite structure_parse_step.
    assert (Hk : current_section (parse_step st x) <> MMSection).
    { unfold parse_step. rewrite transition_eq, Hx.
      destruct (is_claude x); [cbn; by destruct (mm_found st)|].
      destruct (is_header x); rewrite ?andb_true_r, ?andb_false_r;
        repeat case_bool_decide; cbn; congruence. }
    destruct (current_section (parse_step st x)), (structure st); done.
  - unfold parse_step. rewrite transition_eq, Hx.
    destruct (is_claude x); [cbn; by destruct (mm_found st)|].
    destruct (is_header x); rewrite ?andb_true_r, ?andb_false_r;
      repeat case_bool_decide; cbn; congruence.
Qed.

(** A header line that is not marker A closes the body. *)
Lemma foldl_leaves_mm st rest :
  forallb (fun x => negb (is_mm x)) rest = true ->
  first_is is_header rest ->
  current_section st = MMSection ->
  mm_section (structure (foldl parse_step st rest)) = mm_section (structure st).
Proof.
  destruct rest as [|h rest]; [done|]. cbn [forallb first_is foldl].
  intros [Hm%negb_true_iff Hrest]%andb_true_iff Hh Hc.
  assert (Hk : current_section (parse_step st h) <> MMSection).
  { unfold parse_step. rewrite transition_eq, Hm, Hh, Hc.
    destruct (is_claude h); [cbn; by destruct (mm_found st)|].
    by rewrite bool_decide_eq_true_2. }
  rewrite foldl_outside_mm by done. rewrite structure_parse_step.
  destruct (current_section (parse_step st h)), (structure st); done.
Qed.

Lemma first_header_none i l :
  forallb (fun x => negb (is_header x)) l = true -> first_header i l = None.
Proof.
  revert i. induction l as [|x l IH]; intros i; [done|]. cbn [forallb first_header].
  intros [Hx%negb_true_iff Hl]%andb_true_iff. fold (is_header x).
  rewrite Hx, andb_false_r. by apply IH.
Qed.

Lemma occurrences_none (p : string -> bool) l :
  forallb (fun x => negb (p x)) l = true -> occurrences p l = 0.
Proof.
  induction l as [|x l IH]; [done|]. cbn [forallb occurrences].
  intros [Hx%negb_true_iff Hl]%andb_true_iff. by rewrite Hx, IH.
Qed.

(** The parse of an outline with one marker-A line. *)
Lemma parse_one_marker pre a body rest :
  forallb (fun x => negb (is_mm x)) pre = true ->
  is_mm a = true ->
  forallb (fun x => negb (is_header x)) body = true ->
  first_is is_header rest ->
  forallb (fun x => negb (is_mm x)) rest = true ->
  before_mm (structure (parse_lines (pre ++ a :: body ++ rest))) = pre
  /\ mm_section (structure (parse_lines (pre ++ a :: body ++ rest)))
     = a :: body.
Proof.
  intros Hpre Ha Hbody Hfirst Hrest. split.
  - rewrite before_mm_parse_lines, until_mm_app_no_mm by done.
    cbn [until_mm]. rewrite Ha. apply app_nil_r.
  - replace (pre ++ a :: body ++ rest) with ((pre ++ [a]) ++ body ++ rest)
      by (by rewrite <-(assoc_L (++))).
    rewrite (parse_lines_app (pre ++ [a])), foldl_app.
    assert (Hstep : parse_lines (pre ++ [a])
      = mkParseState MMSection true (existsb is_claude pre)
          (mkStructure pre [a] [] [] [])).
    { rewrite parse_lines_snoc, (parse_lines_no_mm _ Hpre).
      unfold parse_step. by rewrite transition_eq, Ha. }
    rewrite Hstep. rewrite (foldl_body _ body Hbody); [|reflexivity].
    rewrite foldl_leaves_mm; [reflexivity|done..].
Qed.

End Placement.

(** X2.  In an outline whose only marker-A line is followed by lines that
    are no headers and then by the end of the file or by a header line,
    and in which marker B stands on one line at most, the merge puts the
    new lines (the research group, then the output group) right behind
    the last line of marker A's body and leaves every other line where it
    was. *)
Theorem new_lines_end_the_body (content : string)
    (pre : list string) (a : string) (body rest : list string)
    (research_files output_files : list string) (existing_files : gset string) :
  Str.split Str.nl content = pre ++ a :: body ++ rest ->
  forallb (fun x => negb (is_mm x)) pre = true ->
  is_mm a = true ->
  forallb (fun x => negb (is_header x)) body = true ->
  first_is is_header rest ->
  forallb (fun x => negb (is_mm x)) rest = true ->
  occurrences is_claude (Str.split Str.nl content) <= 1 ->
  insert_research_output_sections (parse_summary_structure content)
    research_files output_files existing_files
  = pre ++ a :: body
    ++ group_lines "Research" (a :: body)
         (not_linked existing_files research_files)
    ++ group_lines "Output" (a :: body)
         (not_linked existing_files output_files)
    ++ rest.
Proof.
  intros Hsplit Hpre Ha Hbody Hfirst Hrest Hcl.
  destruct (parse_one_marker pre a body rest Hpre Ha Hbody Hfirst Hrest)
    as [Hb Hm].
  assert (Hmm : occurrences is_mm (Str.split Str.nl content) <= 1).
  { rewrite Hsplit, occurrences_app. cbn [occurrences].
    rewrite occurrences_app, Ha, !occurrences_none; [lia|done| |done].
    apply forallb_forall. intros x Hx.
    rewrite forallb_forall in Hbody. specialize (Hbody x Hx).
    apply negb_true_iff in Hbody.
    by destruct (not_header_not_marker x Hbody) as [-> _]. }
  pose proof (parse_lines_round_trip _ Hmm Hcl) as Hrt.
  unfold segments in Hrt. rewrite Hsplit in Hrt, Hcl.
  rewrite Hb, Hm in Hrt.
  apply app_inv_head in Hrt.
  apply (app_inv_head (a :: body) _ rest) in Hrt.
  rewrite insert_research_output_sections_eq.
  unfold parse_summary_structure. rewrite Hsplit, Hb, Hm.
  assert (Hidx : insertion_index (a :: body) = length (a :: body)).
  { unfold insertion_index. cbn [first_header]. cbn [Nat.ltb Nat.leb andb].
    by rewrite first_header_none. }
  rewrite Hidx, firstn_all, drop_all, app_nil_l, Hrt. reflexivity.
Qed.

Lemma new_lines_end_the_body_witness :
  insert_research_output_sections
    (parse_summary_structure "# Summary
## M+M
  * [Research]
    * [A](research/a.md)
## Claude code stuff
* [Notes](notes.md)")
    ["research/a.md"; "research/b.md"] ["output/c.md"] {["research/a.md"]}
  = ["# Summary"; "## M+M"; "  * [Research]"; "    * [A](research/a.md)";
     "    * [B](research/b.md)"; "  * [Output]"; "    * [C](output/c.md)";
     "## Claude code stuff"; "* [Notes](notes.md)"].
Proof.
  rewrite (new_lines_end_the_body _ ["# Summary"] "## M+M"
             ["  * [Research]"; "    * [A](research/a.md)"]
             ["## Claude code stuff"; "* [Notes](notes.md)"]);
    reflexivity.
Defined.

(** ** What the merge and a run keep *)

(** X3.  The merge neither drops nor repeats a line of the outline: the
    lines it returns are, up to their order, the lines of the outline
    together with the lines of the two groups. *)
Theorem merge_keeps_outline_lines (content : string)
    (research_files output_files : list string) (existing_files : gset string) :
  insert_research_output_sections (parse_summary_structure content)
    research_files output_files existing_files
  ≡ₚ Str.split Str.nl content
     ++ group_lines "Research" (mm_section (parse_summary_structure content))
          (not_linked existing_files research_files)
     ++ group_lines "Output" (mm_section (parse_summary_structure content))
          (not_linked existing_files output_files).
Proof.
  rewrite insert_research_output_sections_eq.
  pose proof (parse_lines_permutation (Str.split Str.nl content)) as Hp.
  fold (parse_summary_structure content) in Hp. rewrite <-Hp.
  set (s := parse_summary_structure content). unfold segments.
  set (g1 := group_lines "Research" _ _). set (g2 := group_lines "Output" _ _).
  set (t := take _ _). set (d := drop _ _).
  assert (Hmm : mm_section s = t ++ d) by (symmetry; apply take_drop).
  rewrite Hmm, <-!(assoc_L (++)). do 2 apply Permutation_app_head.
  rewrite !(assoc_L (++) g1), (Permutation_app_comm (g1 ++ g2)).
  by rewrite <-!(assoc_L (++)).
Qed.

(** X4.  When each of the two markers stands on one line of the outline at
    most, the five lists of the parse, joined by line breaks in the order
    in which the merge lays them out, are the outline, character for
    character. *)
Theorem parse_round_trip (content : string) :
  occurrences is_mm (Str.split Str.nl content) <= 1 ->
  occurrences is_claude (Str.split Str.nl content) <= 1 ->
  Str.join nlS (segments (parse_summary_structure content)) = content.
Proof.
  intros Hm Hc. unfold parse_summary_structure.
  rewrite (parse_lines_round_trip _ Hm Hc). apply join_split.
Qed.

Lemma parse_round_trip_witness :
  Str.join nlS (segments (parse_summary_structure "# Summary

## Claude code stuff
  text
## M+M
* [A](a.md)
## Other
"))
  = "# Summary

## Claude code stuff
  text
## M+M
* [A](a.md)
## Other
".
Proof. apply parse_round_trip; vm_compute; lia. Defined.



(** X6.  A run never touches the two watched directories.  If it changes
    anything at all, it was not a dry run, the backup file then holds the
    outline as it was before the run, and no temporary file is left. *)
Theorem run_backs_up_outline (dry_run : bool) (flt : Fault) (fs : FS) :
  research_dir (snd (update_summary dry_run flt fs)) = research_dir fs
  /\ output_dir (snd (update_summary dry_run flt fs)) = output_dir fs
  /\ (snd (update_summary dry_run flt fs) <> fs ->
      dry_run = false
      /\ summary_bak (snd (update_summary dry_run flt fs)) = summary_md fs
      /\ summary_tmp (snd (update_summary dry_run flt fs)) = None).
Proof.
  destruct (update_summary_cases dry_run fs)
    as [[_ H]|[(content & _ & _ & H)|(content & Hc & _ & Hd & H)]];
    rewrite (H flt); [done..|].
  destruct (decide (flt = NoFault)) as [->|Hf].
  - rewrite atomic_write_ok. by rewrite Hc.
  - rewrite atomic_write_fault by done. by rewrite Hc.
Qed.

(** X8.  A run never takes a path out of the existing-link index: every
    path that extraction finds in the outline before a run, it finds in
    the outline after the run, whether the run is a dry run or not, and
    whether a fault strikes or not. *)
Theorem run_keeps_index (dry_run : bool) (flt : Fault) (fs : FS)
    (content written p : string) :
  summary_md fs = Some content ->
  summary_md (snd (update_summary dry_run flt fs)) = Some written ->
  p ∈ extract_existing_links content ->
  p ∈ extract_existing_links written.
Proof.
  intros Hc.
  destruct (update_summary_cases dry_run fs)
    as [[Hn H]|[(c' & Hc' & _ & H)|(c' & Hc' & _ & _ & H)]];
    rewrite (H flt).
  - congruence.
  - simpl. rewrite Hc. by intros [= <-].
  - assert (c' = content) as -> by congruence.
    destruct (decide (flt = NoFault)) as [->|Hf].
    + rewrite atomic_write_ok. simpl. intros [= <-] Hp.
      apply extract_updated. by left.
    + rewrite atomic_write_fault by done. simpl. rewrite Hc.
      by intros [= <-].
Qed.

Lemma run_keeps_index_witness :
  "intro.md" ∈ extract_existing_links "# Summary
* [Intro](intro.md)

  * [Research]
    * [A](research/a.md)
".
Proof.
  apply (run_keeps_index false NoFault
    (mkFS (Some "# Summary
* [Intro](intro.md)
") None None (Some ["a.md"]) None) "# Summary
* [Intro](intro.md)
").
  - reflexivity.
  - vm_compute. reflexivity.
  - apply elem_of_extract. vm_compute. apply list_elem_of_In. simpl. tauto.
Defined.

(** ** Entries and the index *)

Section EntryIndex.

Implicit Types (s t p q : string) (c : ascii) (n : nat).

Lemma all_times (f : ascii -> bool) s n :
  Str.all f s = true -> Str.all f (Str.times s n) = true.
Proof.
  intros Hs. induction n as [|n IH]; [done|]. cbn [Str.times].
  by rewrite all_app, Hs, IH.
Qed.

Lemma startswith_app_refl pat s : Str.startswith pat (pat +:+ s) = true.
Proof.
  induction pat as [|a pat IH]; [done|]. rewrite str_app_cons.
  cbn [Str.startswith]. by rewrite Ascii.eqb_refl, IH.
Qed.

Lemma contains_app_r pat s t :
  Str.contains pat t = true -> Str.contains pat (s +:+ t) = true.
Proof.
  intros Ht. induction s as [|c s IH]; [done|]. rewrite str_app_cons.
  cbn [Str.contains]. rewrite IH. apply orb_true_r.
Qed.

Lemma contains_here pat s : Str.contains pat (pat +:+ s) = true.
Proof.
  destruct (pat +:+ s) eqn:E; cbn [Str.contains];
    by rewrite <-E, startswith_app_refl.
Qed.

End EntryIndex.

(** X9.  Rendering and extraction are inverse to each other on well-formed
    paths: for a path that ends in [.md] and contains no line break, no
    [\]] and no [.md)], the pattern finds in the rendered entry, at any
    indentation depth, one link, and its path is the path rendered. *)
Theorem entry_round_trip (filepath : string) (indent_level : nat) :
  plain_path filepath = true ->
  Str.endswith ".md" filepath = true ->
  LinkPattern.finditer 0 (create_entry filepath indent_level) = [filepath]
  /\ extract_existing_links (create_entry filepath indent_level)
     = {[ filepath ]}.
Proof.
  intros [Hp Hno%negb_true_iff]%andb_true_iff [q ->]%endswith_split.
  assert (Hl : Str.all label_char (filename_to_title (q +:+ ".md")) = true)
    by (by apply all_filename_to_title).
  assert (Hq : Str.all not_nl q = true).
  { rewrite all_app in Hp. apply andb_true_iff in Hp as [Hq _].
    revert Hq. apply all_impl, label_char_not_nl. }
  assert (Hfind : LinkPattern.finditer 0 (create_entry (q +:+ ".md") indent_level)
                  = [q +:+ ".md"]).
  { unfold create_entry.
    replace (Str.times "  " indent_level +:+ "* ["
             +:+ filename_to_title (q +:+ ".md")
             +:+ "](" +:+ (q +:+ ".md") +:+ ")")
      with ((Str.times "  " indent_level +:+ "* ") +:+ "["
            +:+ filename_to_title (q +:+ ".md")
            +:+ "](" +:+ q +:+ ".md)" +:+ "").
    - rewrite finditer_link; [done| |done..].
      rewrite all_app. by rewrite all_times.
    - rewrite (str_app_assoc q ".md" ")"), str_app_assoc. reflexivity. }
  split; [done|]. unfold extract_existing_links. rewrite Hfind.
  simpl. by rewrite (right_id_L ∅ (∪)).
Qed.

Lemma entry_round_trip_witness :
  LinkPattern.finditer 0 (create_entry "output/plan (v2).md" 3)
  = ["output/plan (v2).md"].
Proof.
  destruct (entry_round_trip "output/plan (v2).md" 3) as [H _];
    [reflexivity..|exact H].
Defined.

(** X10.  A text in which [.md)] does not occur has an empty index, and so
    has a text without an opening bracket: links to other kinds of files
    are never taken for documents. *)
Theorem index_needs_md_link (content : string) :
  Str.contains ".md)" content = false \/ Str.all not_open content = true ->
  extract_existing_links content = ∅.
Proof.
  intros H. apply set_eq. intros p. split; [|by intros ?%not_elem_of_empty].
  intros Hp%elem_of_extract. exfalso. destruct H as [H|H].
  - apply finditer_sound in Hp as (pre & label & q & post & _ & -> & _).
    rewrite contains_app_r in H; [done|].
    apply (contains_app_r _ "["), contains_app_r, (contains_app_r _ "](").
    apply contains_app_r, contains_here.
  - rewrite <-(str_app_nil_r content), finditer_no_open in Hp by done.
    by apply elem_of_nil in Hp.
Qed.

Lemma index_needs_md_link_witness :
  extract_existing_links "# Summary
* [Site](https://example.com)
* [Notes](notes.txt)" = ∅.
Proof. apply index_needs_md_link. left. reflexivity. Defined.

(** ** Titles *)

Section TitleFacts.

Implicit Types (s t p : string) (c : ascii) (b : bool).

Lemma length_replace (a d : ascii) s :
  String.length (Str.replace a d s) = String.length s.
Proof. induction s as [|c s IH]; [done|]. simpl. by rewrite IH. Qed.

Lemma length_title_from b s :
  String.length (Str.title_from b s) = String.length s.
Proof.
  revert b. induction s as [|c s IH]; intros b; [done|]. cbn [Str.title_from].
  destruct (Str.islower c), (Str.isupper c); simpl; by rewrite IH.
Qed.

Lemma not_separator_replace s :
  Str.all not_separator (Str.replace "_" " " (Str.replace "-" " " s)) = true.
Proof.
  induction s as [|c s IH]; [done|]. cbn [Str.replace Str.all].
  rewrite IH, andb_true_r.
  destruct (Ascii.eqb_spec c "-") as [->|H1]; [done|].
  destruct (Ascii.eqb_spec c "_") as [->|H2]; [done|].
  unfold not_separator.
  by rewrite (proj2 (Ascii.eqb_neq _ _) H1), (proj2 (Ascii.eqb_neq _ _) H2).
Qed.

Lemma not_separator_case c :
  not_separator c = true ->
  not_separator (Str.toupper c) = true /\ not_separator (Str.tolower c) = true.
Proof. by destruct c as [[] [] [] [] [] [] [] []]. Qed.

Lemma not_separator_title_from b s :
  Str.all not_separator s = true ->
  Str.all not_separator (Str.title_from b s) = true.
Proof.
  revert b. induction s as [|c s IH]; intros b; [done|].
  cbn [Str.all Str.title_from]. intros [Hc Hs]%andb_true_iff.
  destruct (not_separator_case c Hc) as [Hu Hl].
  destruct (Str.islower c), (Str.isupper c), b; cbn [Str.all];
    by rewrite ?Hc, ?Hu, ?Hl, IH.
Qed.

(** The case of a character after title-casing. *)
Lemma case_of_case c :
  (Str.islower c = true ->
     Str.islower (Str.toupper c) = false /\ Str.isupper (Str.toupper c) = true)
  /\ (Str.isupper c = true ->
     Str.islower (Str.tolower c) = true)
  /\ (Str.islower c = true -> Str.isupper c = false).
Proof. by destruct c as [[] [] [] [] [] [] [] []]. Qed.

Lemma title_from_idem b s :
  Str.title_from b (Str.title_from b s) = Str.title_from b s.
Proof.
  revert b. induction s as [|c s IH]; intros b; [done|].
  destruct (case_of_case c) as (Hlow & Hup & Hexcl).
  cbn [Str.title_from].
  destruct (Str.islower c) eqn:El.
  - destruct b; cbn [Str.title_from].
    + by rewrite El, IH.
    + destruct (Hlow eq_refl) as [-> ->]. by rewrite IH.
  - destruct (Str.isupper c) eqn:Eu.
    + destruct b; cbn [Str.title_from].
      * by rewrite (Hup eq_refl), IH.
      * by rewrite El, Eu, IH.
    + cbn [Str.title_from]. by rewrite El, Eu, IH.
Qed.

End TitleFacts.

(** ** Discovery *)

(** X12.  Discovery does not depend on the order in which the system lists
    a directory: two listings with the same entries give the same list. *)
Theorem find_markdown_files_order (dir : string) (entries entries' : list string) :
  entries ≡ₚ entries' ->
  find_markdown_files dir (Some entries)
  = find_markdown_files dir (Some entries').
Proof.
  intros Hperm.
  apply (Sorted_unique String.le).
  - apply (Sorted_merge_sort String.le).
  - apply (Sorted_merge_sort String.le).
  - rewrite !find_markdown_files_permutation. simpl. by rewrite Hperm.
Qed.

Lemma find_markdown_files_order_witness :
  find_markdown_files "research" (Some ["b.md"; "notes.txt"; "a.md"])
  = find_markdown_files "research" (Some ["a.md"; "b.md"; "notes.txt"]).
Proof.
  apply find_markdown_files_order.
  symmetry. apply (Permutation_cons_append ["b.md"; "notes.txt"] "a.md").
Defined.

(** X13.  A directory whose entries have distinct names yields no path
    twice, and no path is discovered in both watched directories: the
    merge never receives the same file under two entries. *)
Theorem discovered_paths_distinct (research output : option (list string)) :
  NoDup (default [] research) -> NoDup (default [] output) ->
  NoDup (find_markdown_files RESEARCH_DIR research
         ++ find_markdown_files OUTPUT_DIR output).
Proof.
  intros Hr Ho.
  assert (Hnd : forall dir listing, NoDup (default [] listing) ->
                  NoDup (find_markdown_files dir listing)).
  { intros dir listing H. rewrite find_markdown_files_permutation.
    apply (NoDup_fmap_2 _), NoDup_filter, H. }
  apply NoDup_app. split_and!; [by apply Hnd| |by apply Hnd].
  intros p (e1 & n1 & _ & _ & _ & ->)%elem_of_find_markdown_files
           (e2 & n2 & _ & _ & _ & H)%elem_of_find_markdown_files.
  by apply (f_equal (Str.take 1)) in H.
Qed.

Lemma discovered_paths_distinct_witness :
  NoDup (find_markdown_files RESEARCH_DIR (Some ["plan.md"; "a.md"])
         ++ find_markdown_files OUTPUT_DIR (Some ["plan.md"])).
Proof.
  apply discovered_paths_distinct; simpl.
  - apply NoDup_cons. split; [by intros ?%list_elem_of_In; simpl in *; intuition discriminate|].
    apply NoDup_singleton.
  - apply NoDup_singleton.
Defined.

(** ** Blanks around a line, and lines of a text *)

Section StripFacts.

Implicit Types (s t pre post : string) (c : ascii).

Lemma lstrip_pad pre s :
  Str.all Str.isspace pre = true -> Str.lstrip (pre +:+ s) = Str.lstrip s.
Proof.
  induction pre as [|c pre IH]; [done|]. cbn [Str.all].
  intros [Hc Hpre]%andb_true_iff. rewrite str_app_cons. cbn [Str.lstrip].
  rewrite Hc. by apply IH.
Qed.

Lemma rstrip_cons c t :
  Str.rstrip (String c t)
  = match Str.rstrip t with
    | "" => if Str.isspace c then "" else String c ""
    | r => String c r
    end.
Proof. reflexivity. Qed.

Lemma rstrip_blank post :
  Str.all Str.isspace post = true -> Str.rstrip post = "".
Proof.
  induction post as [|c post IH]; [done|]. cbn [Str.all].
  intros [Hc Hpost]%andb_true_iff. by rewrite rstrip_cons, (IH Hpost), Hc.
Qed.

Lemma rstrip_pad s post :
  Str.all Str.isspace post = true -> Str.rstrip (s +:+ post) = Str.rstrip s.
Proof.
  intros Hpost. induction s as [|c s IH]; [by apply rstrip_blank|].
  by rewrite str_app_cons, !rstrip_cons, IH.
Qed.

Lemma strip_pad_r s post :
  Str.all Str.isspace post = true -> Str.strip (s +:+ post) = Str.strip s.
Proof.
  intros Hpost. unfold Str.strip. induction s as [|c s IH].
  - rewrite str_app_nil_l. rewrite <-(str_app_nil_r post), lstrip_pad by done.
    done.
  - rewrite str_app_cons. cbn [Str.lstrip]. destruct (Str.isspace c); [done|].
    by apply (rstrip_pad (String c s)).
Qed.

Lemma rstrip_idem s : Str.rstrip (Str.rstrip s) = Str.rstrip s.
Proof.
  induction s as [|c s IH]; [done|]. rewrite rstrip_cons.
  destruct (Str.rstrip s) as [|d r] eqn:E.
  - destruct (Str.isspace c) eqn:Hc; [done|]. rewrite rstrip_cons.
    cbn [Str.rstrip]. by rewrite Hc.
  - by rewrite rstrip_cons, IH.
Qed.

(** Stripping on the right keeps a first character that is no blank. *)
Lemma rstrip_head c s :
  Str.isspace c = false ->
  exists r, Str.rstrip (String c s) = String c r.
Proof.
  intros Hc. rewrite rstrip_cons. destruct (Str.rstrip s) as [|d r].
  - rewrite Hc. by exists "".
  - by exists (String d r).
Qed.

Lemma lstrip_head s :
  Str.lstrip s = "" \/
  exists c t, Str.lstrip s = String c t /\ Str.isspace c = false.
Proof.
  induction s as [|c s IH]; [by left|]. cbn [Str.lstrip].
  destruct (Str.isspace c) eqn:Hc; [done|]. right. by exists c, s.
Qed.

Lemma strip_idem s : Str.strip (Str.strip s) = Str.strip s.
Proof.
  unfold Str.strip. destruct (lstrip_head s) as [->|(c & t & -> & Hc)]; [done|].
  destruct (rstrip_head c t Hc) as [r Hr]. rewrite Hr.
  cbn [Str.lstrip]. rewrite Hc, <-Hr. apply rstrip_idem.
Qed.

End StripFacts.

(** X14.  The tests that the parse and the merge apply to a line do not
    see the blanks around it: blanks before and after a text change
    neither its stripped form nor, therefore, whether it is marker A,
    marker B or a header line; stripping twice is stripping once. *)
Theorem strip_ignores_padding (pre s post : string) :
  Str.all Str.isspace pre = true ->
  Str.all Str.isspace post = true ->
  Str.strip (pre +:+ s +:+ post) = Str.strip s
  /\ Str.strip (Str.strip s) = Str.strip s
  /\ is_mm (pre +:+ s +:+ post) = is_mm s
  /\ is_claude (pre +:+ s +:+ post) = is_claude s
  /\ is_header (pre +:+ s +:+ post) = is_header s.
Proof.
  intros Hpre Hpost.
  assert (H : Str.strip (pre +:+ s +:+ post) = Str.strip s).
  { unfold Str.strip at 1. rewrite lstrip_pad by done.
    by apply strip_pad_r. }
  unfold is_mm, is_claude, is_header. rewrite H.
  split_and!; try done. apply strip_idem.
Qed.

Lemma strip_ignores_padding_witness :
  is_mm ("  " +:+ "## M+M" +:+ String "009" (String "013" "")) = true.
Proof.
  destruct (strip_ignores_padding "  " "## M+M"
              (String "009" (String "013" ""))) as (_ & _ & H & _);
    [reflexivity..|]. rewrite H. reflexivity.
Defined.

(** X15.  Splitting a text into lines and joining the lines by line breaks
    gives the text back; and joining lines, none of which contains a line
    break, and splitting the result gives the lines back, provided there
    is at least one line. *)
Theorem split_join_round_trip (content : string) (lines : list string) :
  lines <> [] ->
  Forall (fun line => Str.all not_nl line = true) lines ->
  Str.join nlS (Str.split Str.nl content) = content
  /\ Str.split Str.nl (Str.join nlS lines) = lines.
Proof.
  intros Hne Hall. split; [apply join_split|].
  induction Hall as [|x l Hx Hl IH]; [done|].
  destruct l as [|y l]; [by apply split_no_sep|].
  rewrite join_cons by done.
  change (x +:+ nlS +:+ Str.join nlS (y :: l))
    with (x +:+ String Str.nl (Str.join nlS (y :: l))).
  rewrite split_app, IH by done. by rewrite (split_no_sep _ x Hx).
Qed.

Lemma split_join_round_trip_witness :
  Str.split Str.nl (Str.join nlS ["## M+M"; ""; "  * [Research]"; ""])
  = ["## M+M"; ""; "  * [Research]"; ""].
Proof.
  destruct (split_join_round_trip "" ["## M+M"; ""; "  * [Research]"; ""])
    as [_ H]; [discriminate|repeat constructor|exact H].
Defined.

(** * Text read back from a file, and names outside the plain case *)

(** ** Characters that title-casing keeps *)

Section CaseFacts.

Implicit Types (s t p q pat : string) (c : ascii) (b : bool)
               (f : ascii -> bool).

Lemma all_title_from_gen f b s :
  (forall c, f c = true ->
     f (Str.toupper c) = true /\ f (Str.tolower c) = true) ->
  Str.all f s = true -> Str.all f (Str.title_from b s) = true.
Proof.
  intros Hf. revert b. induction s as [|c s IH]; intros b; [done|].
  cbn [Str.all Str.title_from]. intros [Hc Hs]%andb_true_iff.
  destruct (Hf c Hc) as [Hu Hl].
  destruct (Str.islower c), (Str.isupper c), b; cbn [Str.all];
    by rewrite ?Hc, ?Hu, ?Hl, IH.
Qed.

Lemma all_filename_to_title_gen f p :
  (forall c, f c = true ->
     f (Str.toupper c) = true /\ f (Str.tolower c) = true) ->
  f " "%char = true ->
  Str.all f p = true -> Str.all f (filename_to_title p) = true.
Proof.
  intros Hf Hsp Hp. unfold filename_to_title, Str.title.
  apply all_title_from_gen; [done|]. apply all_replace; [done|].
  apply all_replace; [done|]. by apply all_stem.
Qed.

Lemma not_nl_case c :
  not_nl c = true ->
  not_nl (Str.toupper c) = true /\ not_nl (Str.tolower c) = true.
Proof. by destruct c as [[] [] [] [] [] [] [] []]. Qed.

Lemma not_cr_case c :
  not_cr c = true ->
  not_cr (Str.toupper c) = true /\ not_cr (Str.tolower c) = true.
Proof. by destruct c as [[] [] [] [] [] [] [] []]. Qed.

Lemma not_eol_case c :
  not_eol c = true ->
  not_eol (Str.toupper c) = true /\ not_eol (Str.tolower c) = true.
Proof. by destruct c as [[] [] [] [] [] [] [] []]. Qed.

Lemma is_ascii_case c :
  is_ascii c = true ->
  is_ascii (Str.toupper c) = true /\ is_ascii (Str.tolower c) = true.
Proof. by destruct c as [[] [] [] [] [] [] [] []]. Qed.

Lemma bracket_class_case c :
  bracket_class (Str.toupper c) = bracket_class c
  /\ bracket_class (Str.tolower c) = bracket_class c.
Proof. by destruct c as [[] [] [] [] [] [] [] []]. Qed.

Lemma not_eol_not_nl c : not_eol c = true -> not_nl c = true.
Proof. unfold not_eol, not_nl. by intros [-> _]%andb_true_iff. Qed.

Lemma not_eol_not_cr c : not_eol c = true -> not_cr c = true.
Proof. unfold not_eol, not_cr. by intros [_ ->]%andb_true_iff. Qed.

(** *** Brackets *)

Lemma same_brackets_refl s : same_brackets s s.
Proof. induction s; simpl; auto. Qed.

Lemma same_brackets_trans s t p :
  same_brackets s t -> same_brackets t p -> same_brackets s p.
Proof.
  revert t p. induction s as [|c s IH]; intros [|d t] [|e p]; simpl; try done.
  intros [H1 H2] [H3 H4]. split; [congruence|eauto].
Qed.

Lemma same_brackets_replace (a d : ascii) s :
  bracket_class a = (false, false) -> bracket_class d = (false, false) ->
  same_brackets s (Str.replace a d s).
Proof.
  intros Ha Hd. induction s as [|c s IH]; [done|]. cbn [Str.replace].
  split; [|done]. destruct (Ascii.eqb_spec c a) as [->|_]; congruence.
Qed.

Lemma same_brackets_title_from b s : same_brackets s (Str.title_from b s).
Proof.
  revert b. induction s as [|c s IH]; intros b; [done|].
  destruct (bracket_class_case c) as [Hu Hl]. cbn [Str.title_from].
  destruct (Str.islower c), (Str.isupper c), b; split; auto.
Qed.

Lemma same_brackets_contains s t :
  same_brackets s t -> Str.contains "](" s = Str.contains "](" t.
Proof.
  revert t. induction s as [|c s IH]; intros [|d t]; simpl; try done.
  intros [Hc Hs]. rewrite (IH t Hs). f_equal.
  injection Hc as -> _. f_equal.
  destruct s as [|c' s], t as [|d' t]; simpl in Hs; try done.
  destruct Hs as [Hc' _]. by injection Hc' as _ ->.
Qed.

(** *** A text inside another *)

Lemma startswith_app_l pat s t :
  Str.startswith pat s = true -> Str.startswith pat (s +:+ t) = true.
Proof.
  revert s. induction pat as [|a pat IH]; intros s; [done|].
  destruct s as [|c s]; [done|]. rewrite str_app_cons. cbn [Str.startswith].
  intros [-> H]%andb_true_iff. by rewrite IH.
Qed.

Lemma contains_nil pat : Str.contains pat "" = true -> pat = "".
Proof. by destruct pat. Qed.

Lemma contains_app_l pat s t :
  Str.contains pat s = true -> Str.contains pat (s +:+ t) = true.
Proof.
  induction s as [|c s IH].
  - intros ->%contains_nil. by destruct t.
  - rewrite str_app_cons. cbn [Str.contains].
    intros [H|H]%orb_true_iff.
    + pose proof (startswith_app_l _ (String c s) t H) as E.
      rewrite str_app_cons in E. by rewrite E.
    + rewrite (IH H). apply orb_true_r.
Qed.

Lemma take_drop_str n s : Str.take n s +:+ Str.drop n s = s.
Proof.
  revert n. induction s as [|c s IH]; intros [|n]; try done.
  cbn [Str.take Str.drop]. by rewrite str_app_cons, IH.
Qed.

Lemma contains_take pat n s :
  Str.contains pat (Str.take n s) = true -> Str.contains pat s = true.
Proof.
  intros H. rewrite <-(take_drop_str n s). by apply contains_app_l.
Qed.

Lemma split_head sep s h l :
  Str.split sep s = h :: l -> exists r, s = h +:+ r.
Proof.
  revert h l. induction s as [|c s IH]; intros h l.
  - intros [= <- <-]. by exists "".
  - cbn [Str.split]. destruct (Ascii.eqb c sep).
    + intros [= <- <-]. by exists (String c s).
    + destruct (Str.split sep s) as [|h' l'] eqn:E.
      * intros [= <- <-]. exists s. reflexivity.
      * intros [= <- <-]. destruct (IH h' l' eq_refl) as [r ->].
        by exists r.
Qed.

Lemma split_piece sep s x :
  x ∈ Str.split sep s -> exists a r, s = a +:+ x +:+ r.
Proof.
  revert x. induction s as [|c s IH]; intros x.
  - intros ->%list_elem_of_singleton. by exists "", "".
  - cbn [Str.split]. destruct (Ascii.eqb c sep).
    + intros [->|Hx]%elem_of_cons; [by exists "", (String c s)|].
      destruct (IH x Hx) as (a & r & ->). by exists (String c a), r.
    + destruct (Str.split sep s) as [|h l] eqn:E.
      * intros ->%list_elem_of_singleton. by exists "", s.
      * intros [->|Hx]%elem_of_cons.
        -- destruct (split_head _ _ _ _ E) as [r ->]. by exists "", r.
        -- destruct (IH x) as (a & r & ->); [by right|].
           by exists (String c a), r.
Qed.

Lemma contains_split_piece pat sep s x :
  x ∈ Str.split sep s ->
  Str.contains pat x = true -> Str.contains pat s = true.
Proof.
  intros (a & r & ->)%split_piece H.
  by apply contains_app_r, contains_app_l.
Qed.

Lemma name_in_parts p :
  PathLib.name p = "" \/ PathLib.name p ∈ Str.split "/" p.
Proof.
  unfold PathLib.name.
  assert (H : forall x, x ∈ PathLib.parts p -> x ∈ Str.split "/" p).
  { intros x [_ Hx]%list_elem_of_filter. done. }
  induction (PathLib.parts p) as [|x l IH]; [by left|].
  destruct l as [|y l].
  - right. apply H. by left.
  - destruct IH as [IH|IH]; [intros z Hz; apply H; by right| |].
    + left. exact IH.
    + right. exact IH.
Qed.

Lemma contains_stem pat p :
  Str.contains pat "" = false ->
  Str.contains pat (PathLib.stem p) = true -> Str.contains pat p = true.
Proof.
  intros Hpat H.
  assert (Hn : Str.contains pat (PathLib.name p) = true).
  { unfold PathLib.stem in H. destruct (Str.rfind "." _) as [i|]; [|done].
    destruct (_ && _); [|done]. by apply contains_take in H. }
  destruct (name_in_parts p) as [E|Hin]; [congruence|].
  by apply (contains_split_piece _ _ _ _ Hin).
Qed.

Lemma title_keeps_brackets p :
  Str.contains "](" p = false ->
  Str.contains "](" (filename_to_title p) = false.
Proof.
  intros Hp. unfold filename_to_title, Str.title.
  rewrite <-(same_brackets_contains (PathLib.stem p)).
  - destruct (Str.contains "](" (PathLib.stem p)) eqn:E; [|done].
    apply contains_stem in E; [congruence|done].
  - eapply same_brackets_trans; [|apply same_brackets_title_from].
    eapply same_brackets_trans; by apply same_brackets_replace.
Qed.

End CaseFacts.

(** ** Labels with brackets *)

Section LabelFacts.

Import LinkPattern.

Implicit Types (s t p q label post pre : string) (c : ascii).

Lemma rest_match_inside c label t :
  Str.startswith "](" (String c label) = false ->
  rest_match (String c (label +:+ "](" +:+ t)) = None.
Proof.
  intros H. unfold rest_match.
  assert (E : Str.startswith "](" (String c (label +:+ "](" +:+ t)) = false).
  { destruct label as [|d label].
    - rewrite str_app_nil_l.
      change ("](" +:+ t) with (String "]" (String "(" t)).
      cbn [Str.startswith]. change (Ascii.eqb "(" "]") with false.
      by rewrite andb_false_r.
    - rewrite str_app_cons. cbn [Str.startswith] in *. exact H. }
  by rewrite E.
Qed.

(** A label matches up to the first [\](] behind which a path can be
    read: a label without [\](] and without a line break is read whole. *)
Lemma link_match_label label q post :
  Str.all not_nl label = true ->
  Str.contains "](" label = false ->
  Str.all not_nl q = true ->
  Str.contains ".md)" (q +:+ ".md") = false ->
  link_match (label +:+ "](" +:+ q +:+ ".md)" +:+ post)
  = Some (q +:+ ".md", String.length label + String.length q + 6).
Proof.
  intros Hl Hb Hq Hno. induction label as [|c label IH].
  - apply (link_match_complete "" q post); done.
  - cbn [Str.all] in Hl. apply andb_true_iff in Hl as [Hn%negb_true_iff Hl].
    cbn [Str.contains] in Hb. apply orb_false_iff in Hb as [Hhere Hb].
    rewrite (str_app_cons c label). cbn [link_match].
    rewrite (rest_match_inside c label _ Hhere), Hn.
    by rewrite (IH Hl Hb).
Qed.

Lemma finditer_label pre label q post :
  Str.all not_open pre = true ->
  Str.all not_nl label = true ->
  Str.contains "](" label = false ->
  Str.all not_nl q = true ->
  Str.contains ".md)" (q +:+ ".md") = false ->
  finditer 0 (pre +:+ "[" +:+ label +:+ "](" +:+ q +:+ ".md)" +:+ post)
  = (q +:+ ".md") :: finditer 0 post.
Proof.
  intros Hpre Hl Hb Hq Hno. rewrite finditer_no_open by done.
  change ("[" +:+ label +:+ "](" +:+ q +:+ ".md)" +:+ post)
    with (String "[" (label +:+ "](" +:+ q +:+ ".md)" +:+ post)).
  cbn [finditer]. rewrite Ascii.eqb_refl.
  rewrite link_match_label by done. f_equal.
  replace (String.length label + String.length q + 6)
    with (String.length (label +:+ "](" +:+ q +:+ ".md)")).
  - rewrite <-finditer_skip with (s := label +:+ "](" +:+ q +:+ ".md)").
    by rewrite !str_app_assoc.
  - rewrite !str_length_app. simpl. lia.
Qed.

(** The entry of a well-formed path puts the path into the index. *)
Lemma extract_well_formed_entry p :
  well_formed_path p = true -> Str.endswith ".md" p = true ->
  p ∈ extract_existing_links (create_entry p 2).
Proof.
  intros [[Hp Hb%negb_true_iff]%andb_true_iff Hno%negb_true_iff]%andb_true_iff
         [q ->]%endswith_split.
  assert (Hnl : Str.all not_nl (q +:+ ".md") = true)
    by (revert Hp; apply all_impl, not_eol_not_nl).
  assert (Hl : Str.all not_nl (filename_to_title (q +:+ ".md")) = true)
    by (apply all_filename_to_title_gen; [apply not_nl_case|done..]).
  assert (Hq : Str.all not_nl q = true).
  { rewrite all_app in Hnl. by apply andb_true_iff in Hnl as [Hq _]. }
  unfold create_entry.
  replace (Str.times "  " 2 +:+ "* [" +:+ filename_to_title (q +:+ ".md")
           +:+ "](" +:+ (q +:+ ".md") +:+ ")")
    with ("    * " +:+ "[" +:+ filename_to_title (q +:+ ".md")
          +:+ "](" +:+ q +:+ ".md)" +:+ "").
  - rewrite elem_of_extract, finditer_label;
      [|done|done|by apply title_keeps_brackets|done|done].
    apply elem_of_cons. by left.
  - rewrite (str_app_assoc q ".md" ")"). reflexivity.
Qed.

End LabelFacts.

(** ** The text that one run writes and the next run reads *)

Section TextMode.

Implicit Types (s t p line content written : string) (c : ascii)
               (L : list string) (fs : FS).

Lemma universal_newlines_id s :
  Str.all not_cr s = true -> universal_newlines s = s.
Proof.
  induction s as [|c s IH]; [done|]. cbn [Str.all universal_newlines].
  intros [Hc%negb_true_iff Hs]%andb_true_iff. by rewrite Hc, IH.
Qed.

Lemma all_join (f : ascii -> bool) sep L :
  Str.all f sep = true ->
  Forall (fun line => Str.all f line = true) L ->
  Str.all f (Str.join sep L) = true.
Proof.
  intros Hsep. induction 1 as [|x l Hx Hl IH]; [done|].
  destruct l as [|y l]; [done|].
  rewrite join_cons by done. by rewrite !all_app, Hx, Hsep, IH.
Qed.

Lemma all_ensure_newline (f : ascii -> bool) s :
  f Str.nl = true -> Str.all f s = true ->
  Str.all f (ensure_newline s) = true.
Proof.
  intros Hnl Hs. unfold ensure_newline. destruct (Str.endswith _ s); [done|].
  rewrite all_app, Hs. simpl. by rewrite Hnl.
Qed.

Lemma all_create_entry (f : ascii -> bool) p n :
  (forall c, f c = true ->
     f (Str.toupper c) = true /\ f (Str.tolower c) = true) ->
  Str.all f " * []()" = true ->
  Str.all f p = true -> Str.all f (create_entry p n) = true.
Proof.
  intros Hf Hchars Hp. unfold create_entry.
  cbn [Str.all] in Hchars.
  repeat (apply andb_true_iff in Hchars as [? Hchars]).
  rewrite !all_app, Hp, all_times, all_filename_to_title_gen; try done.
  - cbn [Str.all]. by repeat (apply andb_true_iff; split).
  - cbn [Str.all]. by repeat (apply andb_true_iff; split).
Qed.

Lemma all_group_lines (f : ascii -> bool) (header : string) mm files :
  (forall c, f c = true ->
     f (Str.toupper c) = true /\ f (Str.tolower c) = true) ->
  Str.all f " * []()" = true -> Str.all f header = true ->
  Forall (fun p => Str.all f p = true) files ->
  Forall (fun line => Str.all f line = true) (group_lines header mm files).
Proof.
  intros Hf Hchars Hh Hfiles. rewrite group_lines_eq. apply Forall_app. split.
  - unfold header_if. destruct (_ && _); [|constructor].
    repeat constructor. rewrite !all_app, Hh.
    cbn [Str.all] in Hchars.
    repeat (apply andb_true_iff in Hchars as [? Hchars]).
    cbn [Str.all]. by repeat (apply andb_true_iff; split).
  - apply Forall_fmap. eapply Forall_impl; [exact Hfiles|].
    intros p Hp. by apply all_create_entry.
Qed.

(** Neither the outline nor a discovered path holds a carriage return:
    then the text that a run leaves in the outline holds none, and text
    mode reads it back as it was written. *)
Lemma written_text_read_back fs dry_run flt written :
  (forall content, summary_md fs = Some content ->
                   Str.all not_cr content = true) ->
  Forall (fun p => Str.all not_cr p = true)
    (find_markdown_files RESEARCH_DIR (research_dir fs)
     ++ find_markdown_files OUTPUT_DIR (output_dir fs)) ->
  summary_md (snd (update_summary dry_run flt fs)) = Some written ->
  universal_newlines written = written.
Proof.
  intros Hc Hfiles Hw. apply universal_newlines_id.
  destruct (update_summary_cases dry_run fs)
    as [[Hn H]|[(content & Hs & _ & H)|(content & Hs & _ & _ & H)]];
    rewrite (H flt) in Hw.
  - simpl in Hw. congruence.
  - simpl in Hw. apply Hc. congruence.
  - destruct (decide (flt = NoFault)) as [->|Hf].
    2: { rewrite atomic_write_fault in Hw by done. simpl in Hw.
         apply Hc. congruence. }
    rewrite atomic_write_ok in Hw. simpl in Hw. injection Hw as <-.
    apply all_ensure_newline; [done|]. apply all_join; [done|].
    apply Forall_forall. intros line Hline.
    apply Forall_app in Hfiles as [Hr Ho].
    apply elem_of_updated_lines in Hline as [Hline|[Hline|Hline]].
    + revert line Hline. apply Forall_forall, split_all. by apply Hc.
    + revert line Hline. apply Forall_forall, all_group_lines;
        [apply not_cr_case|done|done|].
      apply Forall_forall. intros p [_ Hp]%list_elem_of_filter.
      by apply (proj1 (Forall_forall _ _) Hr).
    + revert line Hline. apply Forall_forall, all_group_lines;
        [apply not_cr_case|done|done|].
      apply Forall_forall. intros p [_ Hp]%list_elem_of_filter.
      by apply (proj1 (Forall_forall _ _) Ho).
Qed.

(** After a run that no fault strikes, no well-formed path is pending. *)
Lemma nothing_pending_after_run fs written :
  Forall (fun p => well_formed_path p = true)
    (find_markdown_files RESEARCH_DIR (research_dir fs)
     ++ find_markdown_files OUTPUT_DIR (output_dir fs)) ->
  summary_md (snd (update_summary false NoFault fs)) = Some written ->
  pending written fs = [].
Proof.
  intros Hwf.
  destruct (update_summary_cases false fs)
    as [[Hn H]|[(content & Hc & Hp & H)|(content & Hc & _ & _ & H)]];
    rewrite (H NoFault).
  - simpl. congruence.
  - simpl. rewrite Hc. intros [= <-]. by destruct Hp.
  - rewrite atomic_write_ok. simpl. intros [= <-].
    assert (Hall : forall p,
      p ∈ find_markdown_files RESEARCH_DIR (research_dir fs)
          ++ find_markdown_files OUTPUT_DIR (output_dir fs) ->
      p ∈ extract_existing_links
            (ensure_newline
               (Str.join (String Str.nl "") (updated_lines_of content fs)))).
    { intros p Hp.
      destruct (decide (p ∈ extract_existing_links content)) as [Hin|Hnot];
        [apply extract_updated; by left|].
      rewrite extract_ensure_newline. apply elem_of_extract_join.
      exists (create_entry p 2). split.
      - apply elem_of_updated_lines. right. rewrite !group_lines_eq.
        apply elem_of_app in Hp as [Hp|Hp]; [left|right];
          apply elem_of_app; right; apply list_elem_of_fmap; exists p;
          (split; [done|]); by apply list_elem_of_filter.
      - apply extract_well_formed_entry.
        + by apply (proj1 (Forall_forall _ _) Hwf).
        + apply elem_of_app in Hp as [Hp|Hp];
            by apply find_markdown_files_md in Hp. }
    unfold pending. rewrite !not_linked_nil; [done| |];
      intros p Hp; apply Hall, elem_of_app; auto.
Qed.

Lemma well_formed_not_cr p :
  well_formed_path p = true -> Str.all not_cr p = true.
Proof.
  intros [[Hp _]%andb_true_iff _]%andb_true_iff.
  revert Hp. apply all_impl, not_eol_not_cr.
Qed.

End TextMode.

(** ** Titles *)



(** X11.  The title of an ASCII path is as long as the stem of the path,
    it is ASCII, it holds no [-] and no [_], and title-casing it once more
    changes nothing. *)
Theorem filename_to_title_shape (filepath : string) :
  Str.all is_ascii filepath = true ->
  String.length (filename_to_title filepath)
  = String.length (PathLib.stem filepath)
  /\ Str.all is_ascii (filename_to_title filepath) = true
  /\ Str.all not_separator (filename_to_title filepath) = true
  /\ Str.title (filename_to_title filepath) = filename_to_title filepath.
Proof.
  intros Hascii. split_and!.
  - unfold filename_to_title, Str.title.
    by rewrite length_title_from, !length_replace.
  - by apply all_filename_to_title_gen; [apply is_ascii_case|..].
  - apply not_separator_title_from, not_separator_replace.
  - apply title_from_idem.
Qed.

Lemma filename_to_title_shape_witness :
  String.length (filename_to_title "research/it's-a_2nd-PLAN.final.md")
  = String.length (PathLib.stem "research/it's-a_2nd-PLAN.final.md")
  /\ Str.title (filename_to_title "research/it's-a_2nd-PLAN.final.md")
     = filename_to_title "research/it's-a_2nd-PLAN.final.md".
Proof.
  destruct (filename_to_title_shape "research/it's-a_2nd-PLAN.final.md")
    as (H1 & _ & _ & H4); [reflexivity|]. by split.
Defined.

(** ** Entries in a parse *)

(** X16.  A rendered entry, taken as one line, is no header line and
    neither of the two markers, whatever its path and its depth: the parse
    files it under the key that is current and changes neither the key
    nor a flag.  If the path holds no line break and no carriage return,
    the entry holds none either, so it is one line of the outline that the
    next run reads. *)
Theorem entry_is_no_header (filepath : string) (indent_level : nat) :
  is_header (create_entry filepath indent_level) = false
  /\ is_mm (create_entry filepath indent_level) = false
  /\ is_claude (create_entry filepath indent_level) = false
  /\ (forall st,
        parse_step st (create_entry filepath indent_level)
        = mkParseState (current_section st) (mm_found st) (claude_found st)
            (append_line (current_section st)
               (create_entry filepath indent_level) (structure st)))
  /\ (Str.all not_eol filepath = true ->
      Str.all not_eol (create_entry filepath indent_level) = true
      /\ Str.split Str.nl
           (universal_newlines (create_entry filepath indent_level))
         = [create_entry filepath indent_level]).
Proof.
  assert (H : exists r, Str.strip (create_entry filepath indent_level)
                        = String "*" r).
  { unfold create_entry, Str.strip.
    rewrite lstrip_pad by (by apply all_times).
    change ("* [" +:+ filename_to_title filepath +:+ "](" +:+ filepath +:+ ")")
      with (String "*" (" [" +:+ filename_to_title filepath
                        +:+ "](" +:+ filepath +:+ ")")).
    cbn [Str.lstrip]. change (Str.isspace "*") with false. cbv iota.
    by apply rstrip_head. }
  destruct H as [r Hr].
  assert (Hh : is_header (create_entry filepath indent_level) = false)
    by (unfold is_header; by rewrite Hr).
  assert (Hm : is_mm (create_entry filepath indent_level) = false)
    by (unfold is_mm; by rewrite Hr).
  assert (Hc : is_claude (create_entry filepath indent_level) = false)
    by (unfold is_claude; by rewrite Hr).
  split_and!; try done.
  - intros st. unfold parse_step.
    by rewrite transition_eq, Hm, Hc, Hh, !andb_false_r.
  - intros Hp.
    assert (He : Str.all not_eol (create_entry filepath indent_level) = true)
      by (by apply all_create_entry; [apply not_eol_case|..]).
    split; [done|].
    rewrite universal_newlines_id
      by (revert He; apply all_impl, not_eol_not_cr).
    apply split_no_sep. revert He. apply all_impl.
    intros c. apply not_eol_not_nl.
Qed.

Lemma entry_is_no_header_witness :
  Str.split Str.nl (universal_newlines (create_entry "output/## M+M.md" 2))
  = ["    * [## M+M](output/## M+M.md)"].
Proof.
  destruct (entry_is_no_header "output/## M+M.md" 2) as (_ & _ & _ & _ & H).
  destruct H as [_ H]; [reflexivity|]. exact H.
Defined.

(** ** Running the tool twice, on the text that is read back *)

(** C5, as the code has it.  Let the outline, as text mode reads it, hold
    no carriage return, and let no discovered path contain a line break,
    a carriage return, the text [\](] or the text [.md)].  Then a run
    that is not a dry run and that no fault strikes leaves an outline that
    text mode reads back as it was written, and a file system on which
    the next run, dry or not, with or without a fault, returns the same
    result and changes no file: every path that the first run wrote an
    entry for is found by extraction. *)
Theorem second_run_changes_nothing (fs : FS) (dry_run : bool) (flt : Fault) :
  Forall (fun p => well_formed_path p = true)
    (find_markdown_files RESEARCH_DIR (research_dir fs)
     ++ find_markdown_files OUTPUT_DIR (output_dir fs)) ->
  (forall content, summary_md fs = Some content ->
                   Str.all not_cr content = true) ->
  (forall written,
     summary_md (snd (update_summary false NoFault fs)) = Some written ->
     universal_newlines written = written)
  /\ update_summary dry_run flt (snd (update_summary false NoFault fs))
     = (fst (update_summary false NoFault fs),
        snd (update_summary false NoFault fs)).
Proof.
  intros Hwf Hcr. split.
  { intros written. apply written_text_read_back; [done|].
    eapply Forall_impl; [exact Hwf|]. apply well_formed_not_cr. }
  pose proof (nothing_pending_after_run fs) as Hnone.
  destruct (update_summary_cases false fs)
    as [[Hn H]|[(content & Hc & Hp & H)|(content & Hc & Hpend & _ & H)]];
    rewrite (H NoFault) in *.
  - simpl. by rewrite update_summary_eq, Hn.
  - simpl. rewrite update_summary_eq, Hc.
    destruct Hp as [Hp|?]; [|done].
    rewrite (bool_decide_eq_true_2 _ Hp). by case_bool_decide.
  - rewrite atomic_write_ok in *. cbn [fst snd] in *.
    set (written := ensure_newline _) in *.
    set (fs1 := set_tmp None _) in *.
    specialize (Hnone written Hwf eq_refl).
    rewrite update_summary_eq.
    change (summary_md fs1) with (Some written).
    change (pending written fs1) with (pending written fs).
    cbv beta iota. case_bool_decide; [done|].
    by rewrite (bool_decide_eq_true_2 _ Hnone).
Qed.

Lemma second_run_changes_nothing_witness :
  update_summary false NoFault
    (snd (update_summary false NoFault
            (mkFS (Some "## M+M
## Claude code stuff") None None
                  (Some ["b notes.md"; "a[1]-plan.md"; "draft.txt"])
                  (Some ["report (1).md"]))))
  = (true,
     mkFS (Some "## M+M
  * [Research]
    * [A[1] Plan](research/a[1]-plan.md)
    * [B Notes](research/b notes.md)
  * [Output]
    * [Report (1)](output/report (1).md)
## Claude code stuff
") (Some "## M+M
## Claude code stuff") None
          (Some ["b notes.md"; "a[1]-plan.md"; "draft.txt"])
          (Some ["report (1).md"])).
Proof.
  destruct (second_run_changes_nothing
    (mkFS (Some "## M+M
## Claude code stuff") None None
          (Some ["b notes.md"; "a[1]-plan.md"; "draft.txt"])
          (Some ["report (1).md"])) false NoFault) as [_ H].
  - vm_compute. repeat constructor.
  - intros content [= <-]. reflexivity.
  - rewrite H. vm_compute. reflexivity.
Defined.

(** X7.  Let the outline, as text mode reads it, hold no carriage return,
    and let no discovered path contain a line break, a carriage return,
    the text [\](] or the text [.md)].  Then after a run that is not a dry
    run and that no fault strikes, text mode reads the outline back as it
    was written and every discovered file is linked in it: no file is
    left pending. *)
Theorem run_links_every_file (fs : FS) (written : string) :
  Forall (fun p => well_formed_path p = true)
    (find_markdown_files RESEARCH_DIR (research_dir fs)
     ++ find_markdown_files OUTPUT_DIR (output_dir fs)) ->
  (forall content, summary_md fs = Some content ->
                   Str.all not_cr content = true) ->
  summary_md (snd (update_summary false NoFault fs)) = Some written ->
  universal_newlines written = written
  /\ pending (universal_newlines written) fs = [].
Proof.
  intros Hwf Hcr Hw.
  assert (E : universal_newlines written = written).
  { apply (written_text_read_back fs false NoFault); [done| |done].
    eapply Forall_impl; [exact Hwf|]. apply well_formed_not_cr. }
  split; [done|]. rewrite E. by apply nothing_pending_after_run.
Qed.

Lemma run_links_every_file_witness :
  pending (universal_newlines "## M+M
  * [Output]
    * [Plan (Draft]](output/plan (draft].md)
") (mkFS (Some "## M+M") None None None (Some ["plan (draft].md"])) = [].
Proof.
  refine (proj2 (run_links_every_file
    (mkFS (Some "## M+M") None None None (Some ["plan (draft].md"]))
    "## M+M
  * [Output]
    * [Plan (Draft]](output/plan (draft].md)
" _ _ _)).
  - vm_compute. repeat constructor.
  - intros content [= <-]. reflexivity.
  - vm_compute. reflexivity.
Defined.
